(** * Shopping-assistant tools: a shallow embedding of [tools.py]

    The development follows the Python module function by function:
    [clean_url], [clean_price], [matches_filters], [search_site],
    [search_products], [estimate_shipping] and [check_promo].

    Conventions of the embedding.
    - A Python [str] is a Rocq [string] read as ASCII text: the digits of
      the regular expression class [\d] are the characters 0 to 9, white
      space is what [str.strip] removes below code point 128, [str.upper]
      maps a..z to A..Z; bytes from 128 on are carried through unchanged.
    - A Python [float] is an IEEE 754 binary64 number, here a [spec_float]
      with the operations of the Standard Library's [SpecFloat] at
      precision 53 and maximal exponent 1024.
    - A raised exception is the [Raise] case of [result]; [try]/[except]
      is a match on it.
    - The network and the HTML parser are the environment: a request
      function from the address asked for to a [RequestException], to the
      parsed document tree, or to an exception of another class raised by
      the request or by the parser, which [search_site] does not catch. *)

From Stdlib Require Import ZArith List String Ascii Bool Lia.
From Stdlib Require Import Permutation Sorted.
From Stdlib Require Import SpecFloat.
Import ListNotations.

Set Implicit Arguments.

(** ** Exceptions *)

Inductive exn : Type :=
| ValueError
| TypeError
| KeyError
| AssertionError
| ParserRejectedMarkup.

Inductive result (A : Type) : Type :=
| Ok (a : A)
| Raise (e : exn).

Arguments Ok {A} a.
Arguments Raise {A} e.

Definition bind {A B : Type} (c : result A) (k : A -> result B) : result B :=
  match c with
  | Ok a => k a
  | Raise e => Raise e
  end.

Notation "x <- c ;; k" := (bind c (fun x => k))
  (at level 61, c at next level, right associativity).

(** [list(map(f, xs))] for an [f] that may raise: results in the order of
    [xs], the first exception in that order propagates. *)
Fixpoint mapM {A B : Type} (f : A -> result B) (xs : list A) : result (list B) :=
  match xs with
  | [] => Ok []
  | x :: rest =>
      y <- f x ;;
      ys <- mapM f rest ;;
      Ok (y :: ys)
  end.

(** ** Strings *)

Module Str.

Definition code (c : ascii) : nat := nat_of_ascii c.

(** [\d] on ASCII text. *)
Definition is_digit (c : ascii) : bool :=
  (48 <=? code c) && (code c <=? 57).

Definition digit_value (c : ascii) : Z := Z.of_nat (code c - 48).

(** The characters [str.strip()] removes: tab, line feed, vertical tab,
    form feed, carriage return, the separators 28..31 and the space. *)
Definition is_space (c : ascii) : bool :=
  ((9 <=? code c) && (code c <=? 13))
  || ((28 <=? code c) && (code c <=? 32)).

(** [re.sub('[^...]', '', s)]: every character outside the class is
    replaced by nothing, the others stay in place. *)
Fixpoint re_sub_outside (class : ascii -> bool) (s : string) : string :=
  match s with
  | EmptyString => EmptyString
  | String c rest =>
      if class c then String c (re_sub_outside class rest)
      else re_sub_outside class rest
  end.

Fixpoint lstrip (s : string) : string :=
  match s with
  | EmptyString => EmptyString
  | String c rest => if is_space c then lstrip rest else s
  end.

Fixpoint rev_append (s acc : string) : string :=
  match s with
  | EmptyString => acc
  | String c rest => rev_append rest (String c acc)
  end.

Definition rev (s : string) : string := rev_append s EmptyString.

Definition rstrip (s : string) : string := rev (lstrip (rev s)).

Definition strip (s : string) : string := rstrip (lstrip s).

Definition startswith (s p : string) : bool := String.prefix p s.

(** [s.replace(a, b)] for single characters [a] and [b]. *)
Fixpoint replace_char (a b : ascii) (s : string) : string :=
  match s with
  | EmptyString => EmptyString
  | String c rest =>
      String (if Ascii.eqb c a then b else c) (replace_char a b rest)
  end.

Definition upper_char (c : ascii) : ascii :=
  if (97 <=? code c) && (code c <=? 122) then ascii_of_nat (code c - 32)
  else c.

Fixpoint upper (s : string) : string :=
  match s with
  | EmptyString => EmptyString
  | String c rest => String (upper_char c) (upper rest)
  end.

(** Truth value of a string: empty is false. *)
Definition truthy (s : string) : bool :=
  match s with
  | EmptyString => false
  | String _ _ => true
  end.

(** Dictionary lookup in a table with string keys, first entry first. *)
Fixpoint lookup {V : Type} (k : string) (table : list (string * V)) : option V :=
  match table with
  | [] => None
  | (k', v) :: rest => if String.eqb k k' then Some v else lookup k rest
  end.

End Str.

(** ** Floats *)

Module Float.

Local Open Scope Z_scope.

Definition prec : Z := 53.
Definition emax : Z := 1024.

Definition float : Type := spec_float.

Definition zero : float := S754_zero false.

Definition mul : float -> float -> float := SFmul prec emax.
Definition sub : float -> float -> float := SFsub prec emax.
Definition div : float -> float -> float := SFdiv prec emax.

(** [x < y] and [x <= y]; false as soon as one side is not a number. *)
Definition ltb : float -> float -> bool := SFltb.
Definition leb : float -> float -> bool := SFleb.
Definition eqb : float -> float -> bool := SFeqb.

Definition is_nan (x : float) : bool :=
  match x with
  | S754_nan => true
  | _ => false
  end.

(** The float of an integer literal. *)
Definition of_Z (z : Z) : float := binary_normalize prec emax z 0 false.

(** The float nearest to [m / 10^k], rounded once (to nearest, ties to
    even): what a decimal literal or [float(str)] denotes for the digit
    string of [m] with [k] digits after the point. *)
Definition decimal (m k : Z) : float :=
  match m with
  | Zpos p => div (S754_finite false p 0) (S754_finite false (Z.to_pos (10 ^ k)) 0)
  | _ => zero
  end.

(** Reads the digits at the front of [s]: the number read so far becomes
    [acc * 10 + d], [n] counts the digits, the rest is returned. *)
Fixpoint read_digits (s : string) (acc n : Z) : Z * Z * string :=
  match s with
  | String c rest =>
      if Str.is_digit c
      then read_digits rest (acc * 10 + Str.digit_value c) (n + 1)
      else (acc, n, s)
  | EmptyString => (acc, n, s)
  end.

(** [float(s)] for a string over the digits and the period, which is all
    [clean_price] hands to it: digits with at most one period and at least
    one digit denote a number, anything else raises [ValueError].  (The
    builtin also reads signs, exponents, underscores, white space, [inf]
    and [nan]; none of these characters survives the two substitutions of
    [clean_price].) *)
Definition float_of_str (s : string) : result float :=
  let '(m1, n1, r1) := read_digits s 0 0 in
  match r1 with
  | EmptyString => if n1 =? 0 then Raise ValueError else Ok (decimal m1 0)
  | String c r2 =>
      if Ascii.eqb c "."%char then
        let '(m2, n2, r3) := read_digits r2 m1 0 in
        match r3 with
        | EmptyString =>
            if n1 + n2 =? 0 then Raise ValueError else Ok (decimal m2 n2)
        | String _ _ => Raise ValueError
        end
      else Raise ValueError
  end.

End Float.

(** ** The product model *)

Record Product : Type := mkProduct {
  name : string;
  price : Float.float;
  website : string;
  url : string;
  size : option string;
  color : option string;
  description : option string;
  in_stock : bool;
  shipping_time : option Z;
  return_policy : option string
}.

Definition WEBSITES : list string :=
  ["amazon.com"; "walmart.com"; "target.com"; "ebay.com"; "flipkart.com"]%string.

Definition PROMO_CODES : list (string * Float.float) :=
  [("SAVE10", Float.decimal 10 2);
   ("SUMMER20", Float.decimal 20 2);
   ("FLASH30", Float.decimal 30 2);
   ("FIRSTORDER", Float.decimal 15 2)]%string.

(** ** Values of a filter mapping

    The values a caller can put under a key of [filters]: [None], a number
    (an int or a float, by its float value) or a string. *)

Inductive value : Type :=
| VNone
| VNum (x : Float.float)
| VStr (s : string).

(** [x > v] and [x < v] for a float [x]: ordering a float against [None]
    or a string raises [TypeError]. *)
Definition float_gt (x : Float.float) (v : value) : result bool :=
  match v with
  | VNum y => Ok (Float.ltb y x)
  | VNone | VStr _ => Raise TypeError
  end.

Definition float_lt (x : Float.float) (v : value) : result bool :=
  match v with
  | VNum y => Ok (Float.ltb x y)
  | VNone | VStr _ => Raise TypeError
  end.

(** [o != v] for an optional string [o]; it never raises. *)
Definition optstr_ne (o : option string) (v : value) : bool :=
  match o, v with
  | None, VNone => false
  | Some s, VStr s' => negb (String.eqb s s')
  | _, _ => true
  end.

(** A filter mapping: the items of the dict in iteration order, or [None]. *)
Definition Filters : Type := option (list (string * value)).

(** ** The parsed document *)

(** A node of the tree is a string or a tag with its name, the classes of
    its [class] attribute, its other attributes (each once) and its
    children. *)
#[warnings="-register-all"]
Inductive node : Type :=
| NavigableString (s : string)
| Tag (tag_name : string) (classes : list string)
      (attrs : list (string * string)) (contents : list node).

(** All nodes below [n], in document order. *)
Fixpoint descendants (n : node) : list node :=
  match n with
  | NavigableString _ => []
  | Tag _ _ _ cs =>
      (fix below (l : list node) : list node :=
         match l with
         | [] => []
         | c :: l' => (c :: descendants c) ++ below l'
         end) cs
  end.

(** [n.text]: the strings below [n], concatenated in document order. *)
Fixpoint get_text (n : node) : string :=
  match n with
  | NavigableString s => s
  | Tag _ _ _ cs =>
      (fix below (l : list node) : string :=
         match l with
         | [] => EmptyString
         | c :: l' => (get_text c ++ below l')%string
         end) cs
  end.

Definition has_class (c : string) (n : node) : bool :=
  match n with
  | Tag _ cls _ _ => existsb (String.eqb c) cls
  | NavigableString _ => false
  end.

Definition has_name (t : string) (n : node) : bool :=
  match n with
  | Tag t' _ _ _ => String.eqb t t'
  | NavigableString _ => false
  end.

(** [n.find_all(class_=c)], [n.find(class_=c)], [n.find(t)] and
    [n.get(a)]. *)
Definition find_all_by_class (c : string) (n : node) : list node :=
  filter (has_class c) (descendants n).

Definition find_by_class (c : string) (n : node) : option node :=
  hd_error (find_all_by_class c n).

Definition find_by_name (t : string) (n : node) : option node :=
  hd_error (filter (has_name t) (descendants n)).

Definition get_attr (a : string) (n : node) : option string :=
  match n with
  | Tag _ _ attrs _ => Str.lookup a attrs
  | NavigableString _ => None
  end.

(** ** Cleaning *)

Local Open Scope string_scope.

(** [url] is what [url_elem.get('href')] gave: [None] when the attribute is
    absent. *)
Definition clean_url (url : option string) (site : string) : string :=
  match url with
  | None => ""
  | Some url =>
      if negb (Str.truthy url) then ""
      else if negb (Str.startswith url "http://" || Str.startswith url "https://")
      then "https://www." ++ site ++ (if Str.startswith url "/" then url else "/" ++ url)
      else url
  end.

Definition digit_dot_comma (c : ascii) : bool :=
  Str.is_digit c || Ascii.eqb c "." || Ascii.eqb c ",".

Definition digit_dot (c : ascii) : bool :=
  Str.is_digit c || Ascii.eqb c ".".

Definition clean_price (price_str : string) : result Float.float :=
  let price_str :=
    Str.re_sub_outside digit_dot (Str.re_sub_outside digit_dot_comma price_str) in
  match Float.float_of_str price_str with
  | Ok x => Ok x
  | Raise ValueError | Raise TypeError => Ok Float.zero
  | Raise e => Raise e
  end.

(** ** Filtering *)

Fixpoint filters_loop (product : Product) (items : list (string * value))
  : result bool :=
  match items with
  | [] => Ok true
  | (key, v) :: rest =>
      above <- (if key =? "max_price" then float_gt (price product) v else Ok false) ;;
      if above then Ok false else
      below <- (if key =? "min_price" then float_lt (price product) v else Ok false) ;;
      if below then Ok false else
      if (key =? "size") && optstr_ne (size product) v then Ok false else
      if (key =? "color") && optstr_ne (color product) v then Ok false else
      filters_loop product rest
  end.

Definition matches_filters (product : Product) (filters : Filters) : result bool :=
  match filters with
  | None | Some [] => Ok true
  | Some items => filters_loop product items
  end.

(** ** Sorting

    [l.sort(key=...)] compares keys with [<] only and is stable.  It is
    rendered by insertion from the right: an element goes in front of the
    first one whose key is not smaller than its own.  For keys that are
    numbers the sorted arrangement that keeps equal keys in order is unique
    ([sort_by_key_unique] below), so the choice of algorithm does not show
    in the result. *)

Section SortByKey.

Variable A : Type.
Variable key : A -> Float.float.

Fixpoint insert_by_key (x : A) (l : list A) : list A :=
  match l with
  | [] => [x]
  | y :: l' =>
      if Float.ltb (key y) (key x) then y :: insert_by_key x l'
      else x :: l
  end.

Definition sort_by_key (l : list A) : list A :=
  fold_right insert_by_key [] l.

(** [min(l, key=...)] for a non-empty [l]: the first element that no
    other one is smaller than. *)
Fixpoint min_from (best : A) (l : list A) : A :=
  match l with
  | [] => best
  | x :: l' => min_from (if Float.ltb (key x) (key best) then x else best) l'
  end.

Definition min_by_key (l : list A) : option A :=
  match l with
  | [] => None
  | x :: l' => Some (min_from x l')
  end.

End SortByKey.

(** ** Searching *)

Record Selectors : Type := mkSelectors {
  sel_container : string;
  sel_title : string;
  sel_price : string;
  sel_url : string
}.

Definition search_query_url_tag : list (string * string) :=
  [("amazon.com", "s?k=");
   ("walmart.com", "search?q=");
   ("target.com", "s?searchTerm=");
   ("ebay.com", "sch/i.html?_nkw=");
   ("flipkart.com", "search?q=")].

Definition selectors : list (string * Selectors) :=
  [("amazon.com",
    {| sel_container := "s-result-item"; sel_title := "a-text-normal";
       sel_price := "a-price-whole"; sel_url := "a.a-link-normal" |});
   ("walmart.com",
    {| sel_container := "search-result-product"; sel_title := "product-title-link";
       sel_price := "price-main"; sel_url := "product-title-link" |})].

Definition search_url (site tag query : string) : string :=
  "https://www." ++ site ++ "/" ++ tag ++ Str.replace_char " " "+" query.

(** What [requests.get] followed by the parser gives for an address: the
    request raises a [RequestException]; or the page is fetched and parsed
    into a tree; or the request or the parser raises an exception [e] that
    is not a [RequestException] (the parser rejecting the markup, for
    one). *)
Inductive response : Type :=
| RequestException
| Response (soup : node)
| Uncaught (e : exn).

Section Search.

(** The answer of the network to each address in the run considered. *)
Variable requests_get : string -> response.

(** The body of the [try] inside the loop: the list of products after
    this item, or the exception it ran into. *)
Definition scrape_item (site : string) (site_selectors : Selectors)
    (filters : Filters) (products : list Product) (item : node)
  : result (list Product) :=
  let name_elem := find_by_class (sel_title site_selectors) item in
  let price_elem := find_by_class (sel_price site_selectors) item in
  let url_elem := find_by_name (sel_url site_selectors) item in
  match name_elem, price_elem, url_elem with
  | Some name_elem, Some price_elem, Some url_elem =>
      let price_text := Str.strip (get_text price_elem) in
      price <- clean_price price_text ;;
      if Float.ltb Float.zero price then
        let product :=
          {| name := Str.strip (get_text name_elem);
             price := price;
             website := site;
             url := clean_url (get_attr "href" url_elem) site;
             size := None;
             color := None;
             description := None;
             in_stock := true;
             shipping_time := None;
             return_policy := None |} in
        keep <- matches_filters product filters ;;
        if keep then Ok (products ++ [product])%list else Ok products
      else Ok products
  | _, _, _ => Ok products
  end.

(** One turn of the loop: an exception inside the [try] leaves the list as
    it was and goes on with the next item. *)
Definition loop_step (site : string) (site_selectors : Selectors)
    (filters : Filters) (products : list Product) (item : node)
  : list Product :=
  match scrape_item site site_selectors filters products item with
  | Ok products' => products'
  | Raise _ => products
  end.

Definition search_site (site query : string) (filters : Filters)
  : result (list Product) :=
  match Str.lookup site search_query_url_tag with
  | None => Raise KeyError
  | Some tag =>
      match requests_get (search_url site tag query) with
      | RequestException => Ok []
      | Response soup =>
          match Str.lookup site selectors with
          | None => Ok []
          | Some site_selectors =>
              let products :=
                fold_left (loop_step site site_selectors filters)
                  (find_all_by_class (sel_container site_selectors) soup) [] in
              Ok (firstn 5 products)
          end
      | Uncaught e => Raise e
      end
  end.

Definition search_products (query : string) (filters : Filters)
  : result (list Product) :=
  all_results <- mapM (fun site => search_site site query filters) WEBSITES ;;
  let products := fold_left (fun products r => (products ++ r)%list) all_results [] in
  Ok (sort_by_key price products).

End Search.

(** ** Shipping *)

Record ShippingOption : Type := mkShippingOption {
  cost : Float.float;
  days : Z;
  carrier : string
}.

Definition shipping_options : list (string * ShippingOption) :=
  [("standard", {| cost := Float.decimal 599 2; days := 5; carrier := "USPS" |});
   ("expedited", {| cost := Float.decimal 1299 2; days := 2; carrier := "FedEx" |});
   ("overnight", {| cost := Float.decimal 2499 2; days := 1; carrier := "UPS" |})].

(** A naive [datetime] is its number of microseconds on the calendar's
    time line; [timedelta.days] of a difference rounds towards minus
    infinity. *)
Definition datetime : Type := Z.

Definition timedelta_days (delta : Z) : Z := (delta / 86400000000)%Z.

Inductive ShippingEstimate : Type :=
| Catalog (available_options : list (string * ShippingOption))
| Deadline (available_options : list (string * ShippingOption))
           (meets_deadline : bool)
           (cheapest_option : option (string * ShippingOption)).

(** [now] is what [datetime.now()] returns during the call. *)
Definition estimate_shipping (product : Product) (zip_code : string)
    (target_date : option datetime) (now : datetime) : ShippingEstimate :=
  match target_date with
  | Some target_date =>
      let days_needed := timedelta_days (target_date - now) in
      let available_options :=
        filter (fun kv => (days (snd kv) <=? days_needed)%Z) shipping_options in
      Deadline available_options
               (0 <? List.length available_options)%nat
               (min_by_key (fun kv => cost (snd kv)) available_options)
  | None => Catalog shipping_options
  end.

(** ** Promo codes *)

Inductive PromoResult : Type :=
| PromoValid (discount_percentage original_price final_price savings : Float.float)
| PromoInvalid (message : string).

Definition valid (r : PromoResult) : bool :=
  match r with
  | PromoValid _ _ _ _ => true
  | PromoInvalid _ => false
  end.

Definition check_promo (code : string) (base_price : Float.float) : PromoResult :=
  let code := Str.upper code in
  match Str.lookup code PROMO_CODES with
  | Some discount =>
      let final_price := Float.mul base_price (Float.sub (Float.of_Z 1) discount) in
      PromoValid (Float.mul discount (Float.of_Z 100))
                 base_price
                 final_price
                 (Float.sub base_price final_price)
  | None => PromoInvalid "Invalid promo code"
  end.

(** ** Price comparison *)

Module Cmp.

(** One entry of the comparison: the dict with the keys [store], [price],
    [url] and [in_stock]. *)
Record t : Type := mk {
  store : string;
  price : Float.float;
  url : string;
  in_stock : bool
}.

End Cmp.

Definition comparison_of (p : Product) : Cmp.t :=
  {| Cmp.store := website p;
     Cmp.price := price p;
     Cmp.url := url p;
     Cmp.in_stock := in_stock p |}.

(** [sorted(l, key=...)] is the stable sort of [list.sort]. *)
Definition compare_prices (requests_get : string -> response)
    (product_name : string) : result (list Cmp.t) :=
  products <- search_products requests_get product_name None ;;
  Ok (sort_by_key Cmp.price (map comparison_of products)).

(** ** Return policies *)

Record ReturnPolicy : Type := mkReturnPolicy {
  window : string;
  free_returns : option bool;
  conditions : string;
  process : string
}.

Definition return_policies : list (string * ReturnPolicy) :=
  [("amazon.com",
    {| window := "30 days";
       free_returns := Some true;
       conditions := "Items must be unused and in original packaging";
       process := "Initiate through your account or contact customer service" |});
   ("walmart.com",
    {| window := "90 days";
       free_returns := Some true;
       conditions := "Receipt required, items must be unused";
       process := "Return to store or ship back with provided label" |})].

Definition get_return_policy (website : string) : ReturnPolicy :=
  match Str.lookup website return_policies with
  | Some policy => policy
  | None =>
      {| window := "Policy not found";
         free_returns := None;
         conditions := "Please check store website";
         process := "Contact store customer service" |}
  end.

(** ** Formatting the agent's answer ([app.py]) *)

Module App.

Definition lower_char (c : ascii) : ascii :=
  if (65 <=? Str.code c)%nat && (Str.code c <=? 90)%nat
  then ascii_of_nat (Str.code c + 32)
  else c.

Fixpoint lower (s : string) : string :=
  match s with
  | EmptyString => EmptyString
  | String c rest => String (lower_char c) (lower rest)
  end.

(** [needle in hay]: [needle] starts at some position of [hay]. *)
Fixpoint contains (needle hay : string) : bool :=
  String.prefix needle hay ||
  match hay with
  | EmptyString => false
  | String _ rest => contains needle rest
  end.

Record Formatted : Type := mkFormatted {
  main_response : string;
  price_comparison : option string;
  shipping : option string;
  promo : option string
}.

(** [response] is the dict the agent returned; a dict without the key
    [output] makes [response['output']] raise [KeyError]. *)
Definition format_response (response : list (string * string)) : result Formatted :=
  match Str.lookup "output" response with
  | None => Raise KeyError
  | Some ai_message =>
      Ok {| main_response := ai_message;
            price_comparison :=
              if contains "price comparison" (lower ai_message)
              then Some "Price comparison data here" else None;
            shipping :=
              if contains "shipping" (lower ai_message)
              then Some "Shipping details here" else None;
            promo :=
              if contains "promo" (lower ai_message)
              then Some "Promotion details here" else None |}
  end.

End App.

(** ** Notions used to state the properties *)

(** Whether every character of [s] is in the class. *)
Fixpoint all_chars (class : ascii -> bool) (s : string) : bool :=
  match s with
  | EmptyString => true
  | String c rest => class c && all_chars class rest
  end.

(** A link without at most one slash at its front. *)
Definition without_leading_slash (link : string) : string :=
  match link with
  | String "/" rest => rest
  | _ => link
  end.

(** How many slashes stand at the front of [s], and at its end. *)
Fixpoint leading_slashes (s : string) : nat :=
  match s with
  | String "/" rest => S (leading_slashes rest)
  | _ => 0
  end.

Definition trailing_slashes (s : string) : nat := leading_slashes (Str.rev s).

(** How many slashes separate a site from the path [rest] written after
    it: those the site ends with and those the path starts with. *)
Definition slashes_between (site rest : string) : nat :=
  trailing_slashes site + leading_slashes rest.

(** The products a site's listing containers give, container by container
    in document order: what the loop appends for the container, taken on
    its own. *)
Definition survivors (requests_get : string -> response)
    (site query : string) (filters : Filters) : list Product :=
  match Str.lookup site search_query_url_tag with
  | None => []
  | Some tag =>
      match requests_get (search_url site tag query) with
      | RequestException => []
      | Response soup =>
          match Str.lookup site selectors with
          | None => []
          | Some site_selectors =>
              flat_map (loop_step site site_selectors filters [])
                (find_all_by_class (sel_container site_selectors) soup)
          end
      | Uncaught _ => []
      end
  end.

(** What every product built by [search_site] for [site] looks like. *)
Definition scraped (site : string) (p : Product) : Prop :=
  Float.ltb Float.zero (price p) = true /\
  website p = site /\
  size p = None /\ color p = None /\ in_stock p = true /\
  shipping_time p = None /\ return_policy p = None.

(** No fetch of the search for [query] ends in an exception that
    [search_site] does not catch. *)
Definition all_caught (requests_get : string -> response) (query : string) : Prop :=
  forall site tag e,
    In site WEBSITES ->
    Str.lookup site search_query_url_tag = Some tag ->
    requests_get (search_url site tag query) <> Uncaught e.

(** The network in which the address [u] fails and every other address
    answers as in [requests_get]. *)
Definition failing_at (u : string) (requests_get : string -> response)
  : string -> response :=
  fun u' => if u' =? u then RequestException else requests_get u'.

(** ** Example pages *)

Definition page (items : list node) : node := Tag "[document]" [] [] items.

Definition link_to (href : string) : node :=
  Tag "product-title-link" [] [("href", href)] [].

Definition link_without_href : node := Tag "product-title-link" [] [] [].

Definition walmart_listing (title price_text : string) (link : list node) : node :=
  Tag "div" ["search-result-product"] []
    (Tag "span" ["product-title-link"] [] [NavigableString title]
     :: Tag "span" ["price-main"] [] [NavigableString price_text]
     :: link).

(** Six listings, the cheapest one last. *)
Definition six_listings : node :=
  page [walmart_listing "A" "$60" [link_to "/a"];
        walmart_listing "B" "$50" [link_to "/b"];
        walmart_listing "C" "$40" [link_to "/c"];
        walmart_listing "D" "$30" [link_to "/d"];
        walmart_listing "E" "$20" [link_to "/e"];
        walmart_listing "F" "$10" [link_to "/f"]].

(** One listing whose link element has no [href], one whose [href] is
    empty. *)
Definition listings_without_href : node :=
  page [walmart_listing "Shirt" "$10" [link_without_href];
        walmart_listing "Scarf" "$12" [link_to ""]].

Definition a_product : Product :=
  {| name := "Shirt"; price := Float.of_Z 10; website := "walmart.com";
     url := "https://www.walmart.com/p/1"; size := None; color := None;
     description := None; in_stock := true; shipping_time := None;
     return_policy := None |}.

(** ** Further notions *)

(** How often the character [c] occurs in [s]. *)
Fixpoint count_char (c : ascii) (s : string) : nat :=
  match s with
  | EmptyString => 0
  | String c' rest => (if Ascii.eqb c' c then 1 else 0) + count_char c rest
  end.

(** The number the digits of [s] spell, read from the left after [acc],
    every other character passed over. *)
Fixpoint digits_number (acc : Z) (s : string) : Z :=
  match s with
  | EmptyString => acc
  | String c rest =>
      digits_number (if Str.is_digit c then acc * 10 + Str.digit_value c else acc)%Z rest
  end.

(** How many digits [s] has. *)
Fixpoint count_digits (s : string) : Z :=
  match s with
  | EmptyString => 0
  | String c rest => ((if Str.is_digit c then 1 else 0) + count_digits rest)%Z
  end.

(** How many digits [s] has after its first period (0 without one). *)
Fixpoint digits_after_period (s : string) : Z :=
  match s with
  | EmptyString => 0
  | String c rest =>
      if Ascii.eqb c "." then count_digits rest else digits_after_period rest
  end.

(** What one item of a filter mapping asks of a product. *)
Definition passes (p : Product) (item : string * value) : bool :=
  let (key, v) := item in
  if key =? "max_price" then
    match v with VNum m => negb (Float.ltb m (price p)) | _ => true end
  else if key =? "min_price" then
    match v with VNum m => negb (Float.ltb (price p) m) | _ => true end
  else if key =? "size" then negb (optstr_ne (size p) v)
  else if key =? "color" then negb (optstr_ne (color p) v)
  else true.

(** Whether an item is a price bound, and whether its value is a number. *)
Definition is_bound (item : string * value) : bool :=
  (fst item =? "max_price") || (fst item =? "min_price").

Definition is_number (v : value) : bool :=
  match v with
  | VNum _ => true
  | _ => false
  end.

(** A string that is empty or starts with one of the two schemes. *)
Definition empty_or_absolute (u : string) : Prop :=
  u = "" \/ Str.startswith u "http://" = true \/ Str.startswith u "https://" = true.

(** One day in microseconds. *)
Definition day : Z := 86400000000.

Definition standard_option : string * ShippingOption :=
  ("standard", {| cost := Float.decimal 599 2; days := 5; carrier := "USPS" |}).

Definition expedited_option : string * ShippingOption :=
  ("expedited", {| cost := Float.decimal 1299 2; days := 2; carrier := "FedEx" |}).

Definition overnight_option : string * ShippingOption :=
  ("overnight", {| cost := Float.decimal 2499 2; days := 1; carrier := "UPS" |}).

(** * Facts *)

(** ** The order of floats *)

Module FloatFacts.

Import Float.

Ltac order_step :=
  match goal with
  | |- context [(?a ?= ?b)%Z] => destruct (Z.compare_spec a b)
  | |- context [Pos.compare_cont Eq ?a ?b] =>
      change (Pos.compare_cont Eq a b) with (a ?= b)%positive;
      destruct (Pos.compare_spec a b)
  end.

Ltac order_cases :=
  repeat (simpl; order_step);
  simpl; intros; try reflexivity; try discriminate; try lia.

Ltac by_cases x :=
  destruct x as [[]|[]| |[] ? ?]; simpl in *;
  try reflexivity; try discriminate.

Lemma ltb_irrefl (x : float) : ltb x x = false.
Proof.
  unfold ltb, SFltb. by_cases x; order_cases.
Qed.

Lemma ltb_asym (x y : float) : ltb x y = true -> ltb y x = false.
Proof.
  unfold ltb, SFltb. by_cases x; by_cases y;
    order_cases.
Qed.

Lemma ltb_negtrans (x y z : float) :
  is_nan x = false -> is_nan y = false -> is_nan z = false ->
  ltb x y = false -> ltb y z = false -> ltb x z = false.
Proof.
  unfold ltb, SFltb. intros Hx Hy Hz; revert Hx Hy Hz.
  by_cases x; by_cases y; by_cases z; order_cases.
Qed.

Lemma leb_not_ltb (x y : float) :
  is_nan x = false -> is_nan y = false -> leb x y = negb (ltb y x).
Proof.
  unfold leb, SFleb, ltb, SFltb.
  by_cases x; by_cases y; order_cases.
Qed.

Lemma eqb_not_ltb (x y v : float) :
  eqb x v = true -> eqb y v = true -> ltb x y = false.
Proof.
  unfold eqb, SFeqb, ltb, SFltb.
  by_cases x; by_cases v; by_cases y;
    order_cases.
Qed.

Lemma positive_not_nan (x : float) : ltb zero x = true -> is_nan x = false.
Proof. by_cases x. Qed.

Lemma eqb_refl (x : float) : is_nan x = false -> eqb x x = true.
Proof.
  unfold eqb, SFeqb. by_cases x; order_cases.
Qed.

Lemma eqb_sym (x y : float) : eqb x y = eqb y x.
Proof.
  unfold eqb, SFeqb. by_cases x; by_cases y; order_cases.
Qed.

Lemma ltb_connected (x y : float) :
  is_nan x = false -> is_nan y = false ->
  ltb x y = false -> ltb y x = false -> eqb x y = true.
Proof.
  unfold eqb, SFeqb, ltb, SFltb.
  by_cases x; by_cases y; order_cases.
Qed.

End FloatFacts.

(** ** Sorting by a float key *)

Section SortFacts.

Variable A : Type.
Variable key : A -> Float.float.

Let numeric (a : A) : Prop := Float.is_nan (key a) = false.
Let not_above (a b : A) : Prop := Float.ltb (key b) (key a) = false.

Lemma insert_by_key_perm (x : A) (l : list A) :
  Permutation (insert_by_key key x l) (x :: l).
Proof.
  induction l as [|y l IH]; simpl.
  - apply Permutation_refl.
  - destruct (Float.ltb (key y) (key x)).
    + eapply perm_trans; [apply perm_skip, IH | apply perm_swap].
    + apply Permutation_refl.
Qed.

Lemma sort_by_key_perm (l : list A) : Permutation (sort_by_key key l) l.
Proof.
  induction l as [|x l IH]; simpl.
  - apply perm_nil.
  - eapply perm_trans; [apply insert_by_key_perm | apply perm_skip, IH].
Qed.

Lemma sort_by_key_Forall (P : A -> Prop) (l : list A) :
  Forall P l -> Forall P (sort_by_key key l).
Proof.
  intro H. eapply Permutation_Forall; [|exact H].
  apply Permutation_sym, sort_by_key_perm.
Qed.

(** Stability: a class of elements none of which is below another one
    keeps its order. *)
Lemma insert_by_key_filter_in (P : A -> bool) (x : A) (l : list A) :
  (forall a b, P a = true -> P b = true -> Float.ltb (key a) (key b) = false) ->
  P x = true ->
  filter P (insert_by_key key x l) = x :: filter P l.
Proof.
  intros HP Hx. induction l as [|y l IH]; simpl.
  - now rewrite Hx.
  - destruct (Float.ltb (key y) (key x)) eqn:E; simpl.
    + destruct (P y) eqn:Py.
      * rewrite (HP y x Py Hx) in E. discriminate.
      * exact IH.
    + now rewrite Hx.
Qed.

Lemma insert_by_key_filter_out (P : A -> bool) (x : A) (l : list A) :
  P x = false -> filter P (insert_by_key key x l) = filter P l.
Proof.
  intro Hx. induction l as [|y l IH]; simpl.
  - now rewrite Hx.
  - destruct (Float.ltb (key y) (key x)); simpl.
    + now rewrite IH.
    + now rewrite Hx.
Qed.

Lemma sort_by_key_stable (P : A -> bool) (l : list A) :
  (forall a b, P a = true -> P b = true -> Float.ltb (key a) (key b) = false) ->
  filter P (sort_by_key key l) = filter P l.
Proof.
  intro HP. induction l as [|x l IH]; simpl; [reflexivity|].
  destruct (P x) eqn:Px.
  - rewrite insert_by_key_filter_in by assumption. now rewrite IH.
  - rewrite insert_by_key_filter_out by assumption. exact IH.
Qed.

(** Sortedness, for keys that are numbers. *)
Lemma insert_by_key_sorted (x : A) (l : list A) :
  numeric x -> Forall numeric l ->
  StronglySorted not_above l ->
  StronglySorted not_above (insert_by_key key x l).
Proof.
  intros Hx Hl Hs. induction Hs as [|y l Hs IH Hy]; simpl.
  - constructor; constructor.
  - inversion Hl as [|? ? Ny Nl]; subst.
    destruct (Float.ltb (key y) (key x)) eqn:E.
    + constructor; [now apply IH|].
      eapply Permutation_Forall;
        [apply Permutation_sym, insert_by_key_perm|].
      constructor; [|exact Hy].
      unfold not_above. now apply FloatFacts.ltb_asym.
    + constructor; [now constructor|].
      constructor; [exact E|].
      rewrite Forall_forall in *. intros z Hz.
      unfold not_above in *.
      apply FloatFacts.ltb_negtrans with (y := key y); auto.
      now apply Nl.
Qed.

Lemma sort_by_key_sorted (l : list A) :
  Forall numeric l -> StronglySorted not_above (sort_by_key key l).
Proof.
  induction 1 as [|x l Hx Hl IH]; simpl.
  - constructor.
  - apply insert_by_key_sorted; auto. now apply sort_by_key_Forall.
Qed.

Lemma sort_by_key_ascending (l : list A) :
  Forall numeric l ->
  StronglySorted (fun a b => Float.leb (key a) (key b) = true)
    (sort_by_key key l).
Proof.
  intro Hl.
  assert (Hn : Forall numeric (sort_by_key key l))
    by now apply sort_by_key_Forall.
  pose proof (sort_by_key_sorted Hl) as Hs.
  revert Hn. generalize (sort_by_key key l) Hs. clear Hl Hs l.
  induction 1 as [|x m Hs IH Hx]; intro Hn; constructor.
  - apply IH. now inversion Hn.
  - inversion Hn as [|? ? Nx Nm]; subst.
    rewrite Forall_forall in *. intros z Hz.
    rewrite FloatFacts.leb_not_ltb; [|exact Nx|now apply Nm].
    unfold not_above in Hx. now rewrite (Hx z Hz).
Qed.

(** Sorting commutes with taking out the elements of a class. *)
Lemma insert_by_key_front (x : A) (l : list A) :
  Forall (not_above x) l -> insert_by_key key x l = x :: l.
Proof.
  intro H. destruct H as [|y l Hy _]; simpl; [reflexivity|].
  unfold not_above in Hy. now rewrite Hy.
Qed.

Lemma filter_insert_by_key (Q : A -> bool) (x : A) (l : list A) :
  numeric x -> Forall numeric l -> StronglySorted not_above l ->
  Q x = true ->
  filter Q (insert_by_key key x l) = insert_by_key key x (filter Q l).
Proof.
  intros Hx Hl Hs Qx. induction Hs as [|y l Hs IH Hy]; simpl.
  - now rewrite Qx.
  - inversion Hl as [|? ? Ny Nl]; subst.
    destruct (Float.ltb (key y) (key x)) eqn:E; simpl.
    + destruct (Q y); simpl; [rewrite E|]; now rewrite IH.
    + rewrite Qx.
      change (x :: filter Q (y :: l) = insert_by_key key x (filter Q (y :: l))).
      symmetry. apply insert_by_key_front.
      apply incl_Forall with (l1 := y :: l).
      * intros z Hz. apply filter_In in Hz. tauto.
      * constructor; [exact E|].
        rewrite Forall_forall in *. intros z Hz. unfold not_above in *.
        apply FloatFacts.ltb_negtrans with (y := key y); auto.
        now apply Nl.
Qed.

Lemma filter_sort_by_key (Q : A -> bool) (l : list A) :
  Forall numeric l ->
  filter Q (sort_by_key key l) = sort_by_key key (filter Q l).
Proof.
  induction 1 as [|x l Hx Hl IH]; simpl; [reflexivity|].
  destruct (Q x) eqn:Qx; simpl.
  - rewrite filter_insert_by_key; auto.
    + now rewrite IH.
    + now apply sort_by_key_Forall.
    + now apply sort_by_key_sorted.
  - rewrite insert_by_key_filter_out by assumption. exact IH.
Qed.

(** There is one sorted arrangement that keeps every class of equal keys
    in order, so any stable sort that compares keys with [<] returns what
    [sort_by_key] returns. *)
Lemma sorted_stable_unique (l1 : list A) :
  forall l2,
    Forall numeric l1 -> Forall numeric l2 ->
    StronglySorted not_above l1 -> StronglySorted not_above l2 ->
    (forall x, filter (fun a => Float.eqb (key a) x) l1
               = filter (fun a => Float.eqb (key a) x) l2) ->
    l1 = l2.
Proof.
  induction l1 as [|a l1 IH]; intros [|b l2] N1 N2 S1 S2 H.
  - reflexivity.
  - exfalso. specialize (H (key b)). simpl in H.
    rewrite FloatFacts.eqb_refl in H by now inversion N2. discriminate.
  - exfalso. specialize (H (key a)). simpl in H.
    rewrite FloatFacts.eqb_refl in H by now inversion N1. discriminate.
  - inversion N1 as [|? ? Na N1']; inversion N2 as [|? ? Nb N2']; subst.
    inversion S1 as [|? ? S1' Ha]; inversion S2 as [|? ? S2' Hb]; subst.
    assert (Hab : a = b).
    { pose proof (H (key a)) as Hka. simpl in Hka.
      rewrite (FloatFacts.eqb_refl _ Na) in Hka.
      destruct (Float.eqb (key b) (key a)) eqn:E; [now injection Hka|].
      exfalso.
      assert (Ia : In a l2).
      { eapply proj1. eapply filter_In. rewrite <- Hka. now left. }
      pose proof (H (key b)) as Hkb. simpl in Hkb.
      rewrite (FloatFacts.eqb_refl _ Nb) in Hkb.
      rewrite FloatFacts.eqb_sym, E in Hkb.
      assert (Ib : In b l1).
      { eapply proj1. eapply filter_In. rewrite Hkb. now left. }
      rewrite Forall_forall in Ha, Hb.
      pose proof (Ha b Ib) as Hba. pose proof (Hb a Ia) as Hab.
      unfold not_above in Hba, Hab.
      rewrite (FloatFacts.ltb_connected _ _ Nb Na Hba Hab) in E.
      discriminate. }
    subst b. f_equal. apply IH; auto.
    intro x. specialize (H x). simpl in H.
    destruct (Float.eqb (key a) x); [now injection H|exact H].
Qed.

Lemma sort_by_key_unique (l m : list A) :
  Forall numeric l -> Permutation m l ->
  StronglySorted not_above m ->
  (forall x, filter (fun a => Float.eqb (key a) x) m
             = filter (fun a => Float.eqb (key a) x) l) ->
  m = sort_by_key key l.
Proof.
  intros Nl Hp Hs Hst. apply sorted_stable_unique; auto.
  - eapply Permutation_Forall; [apply Permutation_sym, Hp|exact Nl].
  - now apply sort_by_key_Forall.
  - now apply sort_by_key_sorted.
  - intro x. rewrite Hst. symmetry. apply sort_by_key_stable.
    intros a b Ha Hb. eapply FloatFacts.eqb_not_ltb; eassumption.
Qed.

End SortFacts.

(** ** Rounding keeps the sign *)

Module RoundFacts.

Import Float.
Local Open Scope Z_scope.

Lemma shr_1_nonneg (mrs : shr_record) :
  0 <= shr_m mrs -> 0 <= shr_m (shr_1 mrs).
Proof.
  destruct mrs as [m r s]; simpl.
  destruct m as [|[p|p|]|p]; simpl; lia.
Qed.

Lemma iter_shr_1_nonneg (p : positive) :
  forall mrs, 0 <= shr_m mrs -> 0 <= shr_m (iter_pos shr_1 p mrs).
Proof.
  induction p as [p IH|p IH|]; simpl; intros mrs H.
  - apply IH, IH, shr_1_nonneg, H.
  - apply IH, IH, H.
  - apply shr_1_nonneg, H.
Qed.

Lemma shr_fexp_nonneg (m e : Z) (l : location) :
  0 <= m -> 0 <= shr_m (fst (shr_fexp prec emax m e l)).
Proof.
  intro H. unfold shr_fexp, shr.
  assert (H0 : 0 <= shr_m (shr_record_of_loc m l))
    by (destruct l as [|[]]; exact H).
  destruct (fexp prec emax (Zdigits2 m + e) - e); simpl; auto.
  now apply iter_shr_1_nonneg.
Qed.

Lemma round_nearest_even_nonneg (m : Z) (l : location) :
  0 <= m -> 0 <= round_nearest_even m l.
Proof.
  intro H. destruct l as [|[]]; simpl; try lia.
  destruct (Z.even m); lia.
Qed.

Lemma binary_round_aux_nonneg (mx ex : Z) (lx : location) :
  0 <= mx -> leb zero (binary_round_aux prec emax false mx ex lx) = true.
Proof.
  intro H. unfold binary_round_aux.
  pose proof (shr_fexp_nonneg ex lx H) as H1.
  destruct (shr_fexp prec emax mx ex lx) as [mrs' e']; simpl in H1.
  pose proof (round_nearest_even_nonneg (loc_of_shr_record mrs') H1) as H2.
  pose proof (shr_fexp_nonneg e' loc_Exact H2) as H3.
  destruct (shr_fexp prec emax _ e' loc_Exact) as [mrs'' e'']; simpl in H3.
  destruct (shr_m mrs'') as [|m|m]; try reflexivity; [|lia].
  destruct (e'' <=? emax - prec); reflexivity.
Qed.

Lemma decimal_nonneg (m k : Z) : leb zero (decimal m k) = true.
Proof.
  unfold decimal. destruct m as [|p|p]; try reflexivity.
  unfold div, SFdiv, SFdiv_core_binary.
  set (q := Z.to_pos (10 ^ k)).
  set (e' := Z.min _ _). set (m' := match 0 - 0 - e' with 0 => _ | _ => _ end).
  assert (Hm : 0 <= m').
  { subst m'. destruct (0 - 0 - e'); try lia.
    apply Z.shiftl_nonneg. lia. }
  pose proof (Z.div_pos m' (Z.pos q) Hm eq_refl) as Hq.
  unfold Z.div in Hq.
  destruct (Z.div_eucl m' (Z.pos q)) as [d r]. simpl.
  now apply binary_round_aux_nonneg.
Qed.

Lemma float_of_str_nonneg (s : string) (x : float) :
  float_of_str s = Ok x -> leb zero x = true.
Proof.
  unfold float_of_str.
  destruct (read_digits s 0 0) as [[m1 n1] r1].
  destruct r1 as [|c r2].
  - destruct (n1 =? 0); [discriminate|].
    intro H; injection H as <-. apply decimal_nonneg.
  - destruct (Ascii.eqb c "."); [|discriminate].
    destruct (read_digits r2 m1 0) as [[m2 n2] r3].
    destruct r3; [|discriminate].
    destruct (n1 + n2 =? 0); [discriminate|].
    intro H; injection H as <-. apply decimal_nonneg.
Qed.

Lemma float_of_str_exn (s : string) (e : exn) :
  float_of_str s = Raise e -> e = ValueError.
Proof.
  unfold float_of_str.
  destruct (read_digits s 0 0) as [[m1 n1] r1].
  destruct r1 as [|c r2].
  - destruct (n1 =? 0); [|discriminate]. now intro H; injection H.
  - destruct (Ascii.eqb c ".").
    + destruct (read_digits r2 m1 0) as [[m2 n2] r3].
      destruct r3; [|now intro H; injection H].
      destruct (n1 + n2 =? 0); [|discriminate]. now intro H; injection H.
    + now intro H; injection H.
Qed.

End RoundFacts.

(** * The tools *)

(** ** [clean_price] *)

Lemma re_sub_outside_all (class : ascii -> bool) (s : string) :
  all_chars class (Str.re_sub_outside class s) = true.
Proof.
  induction s as [|c s IH]; simpl; [reflexivity|].
  destruct (class c) eqn:E; simpl; [now rewrite E|exact IH].
Qed.

Lemma clean_price_returns (s : string) : exists x, clean_price s = Ok x.
Proof.
  unfold clean_price.
  destruct (Float.float_of_str _) as [y|e] eqn:E; [now exists y|].
  apply RoundFacts.float_of_str_exn in E. subst e. now exists Float.zero.
Qed.

(** C3. For every string, [clean_price] returns and does not raise: it
    drops the characters that are not a digit, a period or a comma, then
    those that are not a digit or a period, and what is left (only digits
    and periods) is read as a decimal; the result is that number, which is
    not negative, or 0 when nothing is left or it does not read as a
    number. *)
Theorem clean_price_never_raises (price_str : string) :
  let remainder :=
    Str.re_sub_outside digit_dot (Str.re_sub_outside digit_dot_comma price_str) in
  all_chars digit_dot remainder = true /\
  exists x : Float.float,
    clean_price price_str = Ok x /\
    Float.leb Float.zero x = true /\
    match Float.float_of_str remainder with
    | Ok y => x = y
    | Raise _ => x = Float.zero
    end /\
    (remainder = "" -> x = Float.zero).
Proof.
  intro remainder. split; [apply re_sub_outside_all|].
  unfold clean_price. fold remainder.
  destruct (Float.float_of_str remainder) as [y|e] eqn:E.
  - exists y. repeat split.
    + eapply RoundFacts.float_of_str_nonneg, E.
    + intro H. rewrite H in E. discriminate.
  - apply RoundFacts.float_of_str_exn in E. subst e.
    exists Float.zero. repeat split.
Qed.

Example clean_price_currency :
  clean_price "$1,234.56" = Ok (Float.decimal 123456 2).
Proof. vm_compute. reflexivity. Qed.

Example clean_price_malformed :
  clean_price "" = Ok Float.zero /\
  clean_price "call us" = Ok Float.zero /\
  clean_price "1.2.3" = Ok Float.zero /\
  clean_price "-5 EUR" = Ok (Float.of_Z 5).
Proof. vm_compute. repeat split. Qed.

(** ** [clean_url] *)

Lemma startswith_slash (link : string) :
  (Str.startswith link "/" = true -> exists rest, link = String "/" rest) /\
  (Str.startswith link "/" = false -> leading_slashes link = 0).
Proof.
  unfold Str.startswith. destruct link as [|c rest]; [split; [discriminate|reflexivity]|].
  cbn [prefix]. destruct (ascii_dec "/" c) as [<-|Hc].
  - split; [intros _; now exists rest|]. destruct rest; discriminate.
  - split; [discriminate|]. intros _.
    destruct c as [[] [] [] [] [] [] [] []]; try reflexivity. now elim Hc.
Qed.

Lemma append_cancel (a x y : string) : a ++ x = a ++ y -> x = y.
Proof.
  induction a as [|c a IH]; simpl; intro H; [exact H|].
  injection H as H. now apply IH.
Qed.

(** C6, as amended.  A link that is not empty and starts with neither
    [http://] nor [https://] becomes [https://www.<site>] followed by the
    link, after a new slash when the link has none at its front.  The
    slashes between site and path are then those the site ends with and
    those the link starts with, at least one: it is exactly one slash when
    the site does not end with a slash and the link starts with at most
    one.  [/p/123] on [example.com] becomes
    [https://www.example.com/p/123].  A link that starts with one of the
    two schemes is returned as it is. *)
Theorem clean_url_rewrites (link site : string) :
  (link <> "" ->
   Str.startswith link "http://" = false ->
   Str.startswith link "https://" = false ->
   clean_url (Some link) site
     = "https://www." ++ site ++ (if Str.startswith link "/" then link else "/" ++ link)
   /\ clean_url (Some link) site
     = "https://www." ++ site ++ "/" ++ without_leading_slash link
   /\ slashes_between site (if Str.startswith link "/" then link else "/" ++ link)
     = trailing_slashes site + Nat.max 1 (leading_slashes link)
   /\ (trailing_slashes site = 0 -> leading_slashes link <= 1 ->
       slashes_between site (if Str.startswith link "/" then link else "/" ++ link) = 1
       /\ leading_slashes (without_leading_slash link) = 0)) /\
  (Str.startswith link "http://" = true \/ Str.startswith link "https://" = true ->
   clean_url (Some link) site = link) /\
  clean_url (Some "/p/123") "example.com" = "https://www.example.com/p/123".
Proof.
  split; [|split].
  - intros Hne H1 H2.
    assert (Hcount :
      leading_slashes (if Str.startswith link "/" then link else "/" ++ link)
      = Nat.max 1 (leading_slashes link)).
    { destruct (startswith_slash link) as [Ht Hf].
      destruct (Str.startswith link "/").
      - destruct (Ht eq_refl) as [rest ->]. cbn [leading_slashes]. lia.
      - cbn [append leading_slashes]. rewrite (Hf eq_refl). reflexivity. }
    split; [|split; [|split]].
    + unfold clean_url. destruct link as [|c rest]; [congruence|].
      cbn [Str.truthy negb]. now rewrite H1, H2.
    + unfold clean_url. destruct link as [|c rest]; [congruence|].
      cbn [Str.truthy negb]. rewrite H1, H2. cbn [orb negb].
      unfold Str.startswith, without_leading_slash. cbn [prefix].
      destruct (ascii_dec "/" c) as [<-|Hc].
      * destruct rest; reflexivity.
      * destruct c as [[] [] [] [] [] [] [] []]; try reflexivity.
        now elim Hc.
    + unfold slashes_between. now rewrite Hcount.
    + intros Hsite Hlink. unfold slashes_between. rewrite Hcount, Hsite.
      split; [lia|].
      destruct link as [|c rest]; [reflexivity|].
      destruct (ascii_dec c "/") as [->|Hc].
      * cbn [without_leading_slash]. cbn [leading_slashes] in Hlink. lia.
      * destruct c as [[] [] [] [] [] [] [] []]; try reflexivity. now elim Hc.
  - intros H. unfold clean_url.
    destruct link as [|c rest]; [destruct H; discriminate|].
    cbn [Str.truthy negb].
    destruct H as [H|H]; rewrite H; [reflexivity|].
    now rewrite orb_true_r.
  - reflexivity.
Qed.

Lemma clean_url_rewrites_witness :
  clean_url (Some "p/123") "example.com" = "https://www.example.com/p/123" /\
  slashes_between "example.com" "/p/123" = 1 /\
  clean_url (Some "https://shop.example/x") "example.com" = "https://shop.example/x".
Proof.
  split; [|split].
  - apply (proj1 (proj1 (clean_url_rewrites "p/123" "example.com")
                    ltac:(discriminate) eq_refl eq_refl)).
  - apply (proj1 (proj2 (proj2 (proj2
             (proj1 (clean_url_rewrites "p/123" "example.com")
                ltac:(discriminate) eq_refl eq_refl))) eq_refl (le_S _ _ (le_n 0)))).
  - apply (proj1 (proj2 (clean_url_rewrites "https://shop.example/x" "example.com"))).
    right. reflexivity.
Defined.

(** C6 as first stated fails: the claim was one slash between site and path
    for every link without scheme and every site.  A link that starts with
    two slashes keeps both, and a site that ends with a slash gets a second
    one: in neither case can the result be read with exactly one slash
    between the site and the path. *)
Lemma clean_url_two_slashes :
  ("//cdn.example.com/x" <> "" /\
   Str.startswith "//cdn.example.com/x" "http://" = false /\
   Str.startswith "//cdn.example.com/x" "https://" = false /\
   clean_url (Some "//cdn.example.com/x") "example.com"
     = "https://www.example.com//cdn.example.com/x" /\
   ~ exists rest,
       clean_url (Some "//cdn.example.com/x") "example.com"
         = "https://www." ++ "example.com" ++ rest /\
       slashes_between "example.com" rest = 1) /\
  (clean_url (Some "p/1") "example.com/" = "https://www.example.com//p/1" /\
   ~ exists rest,
       clean_url (Some "p/1") "example.com/"
         = "https://www." ++ "example.com/" ++ rest /\
       slashes_between "example.com/" rest = 1).
Proof.
  split.
  - split; [discriminate|]. do 3 (split; [reflexivity|]).
    intros [rest [H1 H2]].
    change (clean_url (Some "//cdn.example.com/x") "example.com")
      with ("https://www." ++ "example.com" ++ "//cdn.example.com/x") in H1.
    apply append_cancel, append_cancel in H1. subst rest. discriminate.
  - split; [reflexivity|].
    intros [rest [H1 H2]].
    change (clean_url (Some "p/1") "example.com/")
      with ("https://www." ++ "example.com/" ++ "/p/1") in H1.
    apply append_cancel, append_cancel in H1. subst rest. discriminate.
Qed.

(** ** [check_promo] *)

(** C7. [check_promo] looks the upper-cased code up in the promo table.
    A code of the table with discount [d] gives a valid result with
    discount percentage [d * 100], the base price as original price, final
    price [base_price * (1 - d)] and savings [base_price - final price]; any
    other code gives the invalid-code result.  There is a result for every
    code, and [check_promo "save10" 100.0] is valid with 10 percent, final
    price 90.0 and savings 10.0. *)
Theorem check_promo_spec (code : string) (base_price : Float.float) :
  (forall d : Float.float,
     Str.lookup (Str.upper code) PROMO_CODES = Some d ->
     let final_price := Float.mul base_price (Float.sub (Float.of_Z 1) d) in
     check_promo code base_price
       = PromoValid (Float.mul d (Float.of_Z 100)) base_price final_price
           (Float.sub base_price final_price)
     /\ valid (check_promo code base_price) = true) /\
  (Str.lookup (Str.upper code) PROMO_CODES = None ->
     check_promo code base_price = PromoInvalid "Invalid promo code"
     /\ valid (check_promo code base_price) = false) /\
  check_promo "save10" (Float.decimal 1000 1)
    = PromoValid (Float.of_Z 10) (Float.of_Z 100) (Float.of_Z 90) (Float.of_Z 10).
Proof.
  unfold check_promo. repeat split.
  - now rewrite H.
  - now rewrite H.
  - now rewrite H.
  - now rewrite H.
Qed.

Lemma check_promo_spec_witness :
  check_promo "Summer20" (Float.of_Z 50)
    = PromoValid (Float.of_Z 20) (Float.of_Z 50) (Float.of_Z 40) (Float.of_Z 10) /\
  check_promo "BOGUS" (Float.of_Z 100) = PromoInvalid "Invalid promo code".
Proof.
  split.
  - apply (proj1 (proj1 (check_promo_spec "Summer20" (Float.of_Z 50))
                    (Float.decimal 20 2) eq_refl)).
  - apply (proj1 (proj1 (proj2 (check_promo_spec "BOGUS" (Float.of_Z 100))) eq_refl)).
Defined.

(** ** [estimate_shipping] *)

Lemma timedelta_days_negative (delta : Z) : (delta < 0 -> timedelta_days delta < 0)%Z.
Proof.
  intro H. unfold timedelta_days. apply Z.div_lt_upper_bound; lia.
Qed.

(** C8. With a target date before the current time the days remaining are
    negative, no shipping option qualifies, the deadline is not met and
    there is no cheapest option. *)
Theorem estimate_shipping_past_deadline
    (product : Product) (zip_code : string) (target_date now : datetime) :
  (target_date < now)%Z ->
  (timedelta_days (target_date - now) < 0)%Z /\
  estimate_shipping product zip_code (Some target_date) now
    = Deadline [] false None.
Proof.
  intro H.
  assert (Hd : (timedelta_days (target_date - now) < 0)%Z)
    by (apply timedelta_days_negative; lia).
  split; [exact Hd|].
  unfold estimate_shipping, shipping_options. cbn [filter snd days].
  repeat match goal with
         | |- context [(?d <=? ?x)%Z] =>
             destruct (Z.leb_spec d x); [lia|]
         end.
  reflexivity.
Qed.

Lemma estimate_shipping_past_deadline_witness :
  estimate_shipping a_product "94110" (Some 0%Z) 86400000000%Z
    = Deadline [] false None.
Proof.
  apply (proj2 (@estimate_shipping_past_deadline a_product "94110"
                  0%Z 86400000000%Z eq_refl)).
Defined.

(** C10. The shipping estimate reads neither the product nor the zip
    code: with the same target date and the same current time, any two
    products and any two zip codes give the same estimate. *)
Theorem estimate_shipping_ignores_product_and_zip
    (p1 p2 : Product) (z1 z2 : string)
    (target_date : option datetime) (now : datetime) :
  estimate_shipping p1 z1 target_date now
    = estimate_shipping p2 z2 target_date now.
Proof.
  destruct target_date; reflexivity.
Qed.


(** ** [search_site] *)

Section SearchFacts.

Variable requests_get : string -> response.
Variables (site : string) (site_selectors : Selectors) (filters : Filters).

(** An item leaves the list alone or appends one product to it. *)
Lemma scrape_item_cases (products : list Product) (item : node) :
  (scrape_item site site_selectors filters products item = Ok products \/
   exists e, scrape_item site site_selectors filters products item = Raise e) \/
  exists p, scraped site p /\
    matches_filters p filters = Ok true /\
    forall acc, scrape_item site site_selectors filters acc item = Ok (acc ++ [p])%list.
Proof.
  unfold scrape_item.
  destruct (find_by_class (sel_title site_selectors) item) as [name_elem|];
    [|left; left; reflexivity].
  destruct (find_by_class (sel_price site_selectors) item) as [price_elem|];
    [|left; left; reflexivity].
  destruct (find_by_name (sel_url site_selectors) item) as [url_elem|];
    [|left; left; reflexivity].
  destruct (clean_price_returns (Str.strip (get_text price_elem))) as [x ->].
  cbn [bind].
  destruct (Float.ltb Float.zero x) eqn:Hpos; [|left; left; reflexivity].
  match goal with
  | |- context [matches_filters ?p filters] =>
      destruct (matches_filters p filters) as [[|]|e] eqn:Hm; cbn [bind]
  end.
  - right. eexists. split; [|split; [exact Hm|]].
    + repeat split. exact Hpos.
    + intro acc. reflexivity.
  - left; left; reflexivity.
  - left; right. now exists e.
Qed.

Lemma loop_step_app (products : list Product) (item : node) :
  loop_step site site_selectors filters products item
    = (products ++ loop_step site site_selectors filters [] item)%list.
Proof.
  unfold loop_step.
  destruct (scrape_item_cases [] item) as [[H|[e H]]|[p [_ [_ H]]]].
  - destruct (scrape_item_cases products item) as [[H'|[e' H']]|[p' [_ [_ H']]]].
    + rewrite H, H'. now rewrite app_nil_r.
    + rewrite H, H'. now rewrite app_nil_r.
    + rewrite (H' []) in H. discriminate.
  - destruct (scrape_item_cases products item) as [[H'|[e' H']]|[p' [_ [_ H']]]].
    + rewrite H, H'. now rewrite app_nil_r.
    + rewrite H, H'. now rewrite app_nil_r.
    + rewrite (H' []) in H. discriminate.
  - now rewrite (H products), (H []).
Qed.

Lemma loop_step_scraped (item : node) :
  Forall (scraped site) (loop_step site site_selectors filters [] item).
Proof.
  unfold loop_step.
  destruct (scrape_item_cases [] item) as [[H|[e H]]|[p [Hp [_ H]]]].
  - rewrite H. constructor.
  - rewrite H. constructor.
  - rewrite (H []). constructor; [exact Hp|constructor].
Qed.

Lemma loop_step_matches (item : node) (p : Product) :
  In p (loop_step site site_selectors filters [] item) ->
  matches_filters p filters = Ok true.
Proof.
  unfold loop_step.
  destruct (scrape_item_cases [] item) as [[H|[e H]]|[q [_ [Hq H]]]].
  - rewrite H. intros [].
  - rewrite H. intros [].
  - rewrite (H []). intros [<-|[]]. exact Hq.
Qed.

(** The loop appends, item by item, what each item gives on its own. *)
Lemma loop_flat_map (items : list node) :
  forall products,
    fold_left (loop_step site site_selectors filters) items products
      = (products ++ flat_map (loop_step site site_selectors filters []) items)%list.
Proof.
  induction items as [|item items IH]; intro products; simpl.
  - now rewrite app_nil_r.
  - rewrite IH, loop_step_app. now rewrite app_assoc.
Qed.

End SearchFacts.

Lemma search_site_survivors (requests_get : string -> response)
    (site query : string) (filters : Filters) (products : list Product) :
  search_site requests_get site query filters = Ok products ->
  products = firstn 5 (survivors requests_get site query filters).
Proof.
  unfold search_site, survivors.
  destruct (Str.lookup site search_query_url_tag) as [tag|]; [|discriminate].
  destruct (requests_get (search_url site tag query)) as [|soup|e].
  - intro H; injection H as <-. reflexivity.
  - destruct (Str.lookup site selectors) as [site_selectors|].
    + rewrite loop_flat_map. intro H; injection H as <-. reflexivity.
    + intro H; injection H as <-. reflexivity.
  - discriminate.
Qed.

Lemma survivors_scraped (requests_get : string -> response)
    (site query : string) (filters : Filters) :
  Forall (scraped site) (survivors requests_get site query filters) /\
  Forall (fun p => matches_filters p filters = Ok true)
    (survivors requests_get site query filters).
Proof.
  unfold survivors.
  destruct (Str.lookup site search_query_url_tag) as [tag|]; [|split; constructor].
  destruct (requests_get (search_url site tag query)) as [|soup|e];
    [split; constructor| |split; constructor].
  destruct (Str.lookup site selectors) as [site_selectors|]; [|split; constructor].
  split; apply Forall_forall; intros p Hp; apply in_flat_map in Hp;
    destruct Hp as [item [_ Hp]].
  - pose proof (loop_step_scraped site site_selectors filters item) as H.
    rewrite Forall_forall in H. now apply H.
  - eapply loop_step_matches, Hp.
Qed.

Lemma in_firstn (A : Type) (n : nat) (l : list A) (x : A) :
  In x (firstn n l) -> In x l.
Proof.
  intro H. rewrite <- (firstn_skipn n l). apply in_or_app. now left.
Qed.

Lemma search_site_scraped (requests_get : string -> response)
    (site query : string) (filters : Filters) (products : list Product) :
  search_site requests_get site query filters = Ok products ->
  Forall (scraped site) products.
Proof.
  intro H. apply search_site_survivors in H. subst products.
  apply Forall_forall. intros p Hp.
  destruct (survivors_scraped requests_get site query filters) as [Hs _].
  rewrite Forall_forall in Hs. apply Hs.
  eapply in_firstn, Hp.
Qed.

(** For a site of [WEBSITES], [search_site] returns unless the fetch ends
    in an exception it does not catch, which it passes on. *)
Lemma search_site_registered (requests_get : string -> response)
    (site tag query : string) (filters : Filters) :
  Str.lookup site search_query_url_tag = Some tag ->
  (forall e, requests_get (search_url site tag query) <> Uncaught e) ->
  exists products, search_site requests_get site query filters = Ok products.
Proof.
  intros Ht H. unfold search_site. rewrite Ht.
  destruct (requests_get (search_url site tag query)) as [|soup|e];
    [eexists; reflexivity| |now elim (H e)].
  destruct (Str.lookup site selectors); eexists; reflexivity.
Qed.

Lemma search_site_passes_on (requests_get : string -> response)
    (site tag query : string) (filters : Filters) (e : exn) :
  Str.lookup site search_query_url_tag = Some tag ->
  requests_get (search_url site tag query) = Uncaught e ->
  search_site requests_get site query filters = Raise e.
Proof.
  intros Ht H. unfold search_site. now rewrite Ht, H.
Qed.

Lemma registered_tag (site : string) :
  In site WEBSITES -> exists tag, Str.lookup site search_query_url_tag = Some tag.
Proof.
  intro H. simpl in H.
  repeat (destruct H as [<-|H]; [eexists; reflexivity|]). destruct H.
Qed.

(** C4. Whenever [search_site] returns, its result has at most 5 products,
    and they are the first 5 (or fewer) of the products its listing
    containers give in document order after extraction and filtering.  On
    a page of six listings with the cheapest one last, the result is the
    first five and leaves the cheapest out.  For a site of [WEBSITES],
    [search_site] returns unless the request or the parser raises an
    exception that is not a [RequestException]; that exception it passes
    on. *)
Theorem search_site_first_five (requests_get : string -> response)
    (site query : string) (filters : Filters) :
  (forall tag,
     Str.lookup site search_query_url_tag = Some tag ->
     ((forall e, requests_get (search_url site tag query) <> Uncaught e) ->
      exists products, search_site requests_get site query filters = Ok products) /\
     (forall e, requests_get (search_url site tag query) = Uncaught e ->
      search_site requests_get site query filters = Raise e)) /\
  (forall products,
     search_site requests_get site query filters = Ok products ->
     (List.length products <= 5)%nat /\
     products = firstn 5 (survivors requests_get site query filters)) /\
  (exists products,
     search_site (fun _ => Response six_listings) "walmart.com" "shirt" None
       = Ok products /\
     map (fun p => (name p, price p)) products
       = [("A", Float.of_Z 60); ("B", Float.of_Z 50); ("C", Float.of_Z 40);
          ("D", Float.of_Z 30); ("E", Float.of_Z 20)] /\
     map (fun p => (name p, price p))
         (survivors (fun _ => Response six_listings) "walmart.com" "shirt" None)
       = [("A", Float.of_Z 60); ("B", Float.of_Z 50); ("C", Float.of_Z 40);
          ("D", Float.of_Z 30); ("E", Float.of_Z 20); ("F", Float.of_Z 10)]).
Proof.
  split; [|split].
  - intros tag Ht. split.
    + now apply search_site_registered.
    + intro e. now apply search_site_passes_on.
  - intros products H. apply search_site_survivors in H. subst products.
    split; [apply firstn_le_length|reflexivity].
  - eexists. split; [vm_compute; reflexivity|].
    split; vm_compute; reflexivity.
Qed.

Lemma search_site_first_five_witness :
  exists products,
    search_site (fun _ => Response six_listings) "walmart.com" "shirt" None
      = Ok products /\
    (List.length products <= 5)%nat.
Proof.
  pose (world := fun _ : string => Response six_listings).
  destruct (proj1 (proj1 (search_site_first_five world "walmart.com" "shirt" None)
                     "search?q=" eq_refl)
              ltac:(discriminate)) as [products H].
  exists products. split; [exact H|].
  exact (proj1 (proj1 (proj2 (search_site_first_five world "walmart.com" "shirt" None))
                  products H)).
Defined.

(** C5, at an input where it fails.  A listing whose link element has no
    [href], and one whose [href] is empty, are not skipped: each gives a
    product, with the empty string as its [url]. *)
Theorem search_site_keeps_listing_with_empty_link :
  exists p q,
    search_site (fun _ => Response listings_without_href) "walmart.com" "shirt" None
      = Ok [p; q] /\
    name p = "Shirt" /\ url p = "" /\
    name q = "Scarf" /\ url q = "".
Proof.
  do 2 eexists. split; [vm_compute; reflexivity|]. repeat split.
Qed.

(** ** [search_products] *)

Lemma mapM_Forall2 (A B : Type) (f : A -> result B) (xs : list A) :
  forall ys, mapM f xs = Ok ys -> Forall2 (fun x y => f x = Ok y) xs ys.
Proof.
  induction xs as [|x xs IH]; simpl; intros ys H.
  - injection H as <-. constructor.
  - destruct (f x) as [y|e] eqn:Hx; [|discriminate]. cbn [bind] in H.
    destruct (mapM f xs) as [ys'|e]; [|discriminate]. cbn [bind] in H.
    injection H as <-. constructor; auto.
Qed.

Lemma Forall2_mapM (A B : Type) (f : A -> result B) (xs : list A) (ys : list B) :
  Forall2 (fun x y => f x = Ok y) xs ys -> mapM f xs = Ok ys.
Proof.
  induction 1 as [|x y xs ys Hxy _ IH]; simpl; [reflexivity|].
  now rewrite Hxy, IH.
Qed.

Lemma mapM_returns (A B : Type) (f : A -> result B) (xs : list A) :
  (forall x, In x xs -> exists y, f x = Ok y) ->
  exists ys, mapM f xs = Ok ys.
Proof.
  induction xs as [|x xs IH]; simpl; intro H.
  - now exists [].
  - destruct (H x (or_introl eq_refl)) as [y ->].
    destruct IH as [ys ->]; [intros; apply H; now right|].
    now exists (y :: ys).
Qed.

Lemma extend_concat (A : Type) (rs : list (list A)) :
  forall products,
    fold_left (fun products r => (products ++ r)%list) rs products
      = (products ++ List.concat rs)%list.
Proof.
  induction rs as [|r rs IH]; intro products; simpl.
  - now rewrite app_nil_r.
  - rewrite IH. now rewrite app_assoc.
Qed.

(** When [search_products] returns, the per-site lists exist, in the order
    of [WEBSITES], and the result is their concatenation, sorted. *)
Lemma search_products_results (requests_get : string -> response)
    (query : string) (filters : Filters) (products : list Product) :
  search_products requests_get query filters = Ok products ->
  exists all_results,
    Forall2 (fun site r => search_site requests_get site query filters = Ok r)
      WEBSITES all_results /\
    products = sort_by_key price (List.concat all_results).
Proof.
  unfold search_products. intro H.
  destruct (mapM (fun site => search_site requests_get site query filters) WEBSITES)
    as [rs|e] eqn:Hrs; [|discriminate].
  cbn [bind] in H. injection H as <-.
  exists rs. split; [now apply mapM_Forall2|].
  now rewrite extend_concat.
Qed.

Lemma search_products_of_results (requests_get : string -> response)
    (query : string) (filters : Filters) (all_results : list (list Product)) :
  Forall2 (fun site r => search_site requests_get site query filters = Ok r)
    WEBSITES all_results ->
  search_products requests_get query filters
    = Ok (sort_by_key price (List.concat all_results)).
Proof.
  intro H. apply Forall2_mapM in H. unfold search_products. rewrite H.
  cbn [bind]. now rewrite extend_concat.
Qed.

(** [search_products] returns when no fetch ends in an exception that
    [search_site] does not catch. *)
Lemma search_products_returns (requests_get : string -> response)
    (query : string) (filters : Filters) :
  all_caught requests_get query ->
  exists products, search_products requests_get query filters = Ok products.
Proof.
  intro H.
  destruct (@mapM_returns _ _
              (fun site => search_site requests_get site query filters) WEBSITES)
    as [rs Hrs].
  { intros site Hs. destruct (registered_tag Hs) as [tag Ht].
    apply search_site_registered with (tag := tag); [exact Ht|].
    intro e. now apply H. }
  exists (sort_by_key price (List.concat rs)).
  apply search_products_of_results. now apply mapM_Forall2.
Qed.

Lemma Forall2_in_right (A B : Type) (R : A -> B -> Prop) (xs : list A) (ys : list B) :
  Forall2 R xs ys -> forall y, In y ys -> exists x, In x xs /\ R x y.
Proof.
  induction 1 as [|x y xs ys Hxy _ IH]; intros y' Hy; [destruct Hy|].
  destruct Hy as [<-|Hy].
  - exists x. split; [now left|exact Hxy].
  - destruct (IH y' Hy) as [x' [Hx' Hr]]. exists x'. split; [now right|exact Hr].
Qed.

(** Every product of the result is among the survivors of some site. *)
Lemma search_products_member (requests_get : string -> response)
    (query : string) (filters : Filters) (products : list Product) (p : Product) :
  search_products requests_get query filters = Ok products ->
  In p products ->
  exists site, In site WEBSITES /\ In p (survivors requests_get site query filters).
Proof.
  intros H Hp.
  destruct (search_products_results _ _ _ H) as [rs [Hrs ->]].
  apply (Permutation_in _ (sort_by_key_perm price (List.concat rs))) in Hp.
  apply in_concat in Hp. destruct Hp as [r [Hr Hp]].
  destruct (@Forall2_in_right _ _ _ _ _ Hrs r Hr) as [site [Hs Hsr]].
  exists site. split; [exact Hs|].
  apply search_site_survivors in Hsr. subst r. eapply in_firstn, Hp.
Qed.

(** When no site has a survivor, a returned result is empty. *)
Lemma search_products_nothing (requests_get : string -> response)
    (query : string) (filters : Filters) (products : list Product) :
  (forall site, survivors requests_get site query filters = []) ->
  search_products requests_get query filters = Ok products ->
  products = [].
Proof.
  intros Hnone H. destruct products as [|p l]; [reflexivity|exfalso].
  destruct (@search_products_member requests_get query filters (p :: l) p H
              (or_introl eq_refl)) as [site [_ Hp]].
  now rewrite Hnone in Hp.
Qed.

Lemma scraped_numeric (site : string) (p : Product) :
  scraped site p -> Float.is_nan (price p) = false.
Proof.
  intros [H _]. now apply FloatFacts.positive_not_nan.
Qed.

Lemma results_numeric (requests_get : string -> response)
    (query : string) (filters : Filters) (sites : list string)
    (all_results : list (list Product)) :
  Forall2 (fun site r => search_site requests_get site query filters = Ok r)
    sites all_results ->
  Forall (fun p => Float.is_nan (price p) = false) (List.concat all_results).
Proof.
  induction 1 as [|site r sites rs H _ IH]; simpl; [constructor|].
  apply Forall_app. split; [|exact IH].
  apply search_site_scraped in H.
  eapply Forall_impl; [|exact H]. intros p. apply scraped_numeric.
Qed.

(** C1. For every query and every filter mapping (or none), what
    [search_products] returns is the concatenation of the per-site lists,
    taken in the order of [WEBSITES], sorted by price: the result is a
    rearrangement of the concatenation, prices ascend along it, and the
    products of any one price stand in the order they had before the sort.
    It returns whenever no fetch ends in an exception that [search_site]
    does not catch. *)
Theorem search_products_sorted_stable (requests_get : string -> response)
    (query : string) (filters : Filters) :
  (all_caught requests_get query ->
   exists products, search_products requests_get query filters = Ok products) /\
  (forall products,
     search_products requests_get query filters = Ok products ->
     exists all_results,
       Forall2 (fun site r => search_site requests_get site query filters = Ok r)
         WEBSITES all_results /\
       Permutation products (List.concat all_results) /\
       StronglySorted (fun a b => Float.leb (price a) (price b) = true) products /\
       forall x : Float.float,
         filter (fun p => Float.eqb (price p) x) products
           = filter (fun p => Float.eqb (price p) x) (List.concat all_results)).
Proof.
  split; [apply search_products_returns|].
  intros products H.
  destruct (search_products_results _ _ _ H) as [rs [Hrs ->]].
  exists rs. split; [exact Hrs|].
  split; [apply sort_by_key_perm|].
  split.
  - apply sort_by_key_ascending. eapply results_numeric, Hrs.
  - intro x. apply sort_by_key_stable.
    intros a b Ha Hb. eapply FloatFacts.eqb_not_ltb; eassumption.
Qed.

Lemma search_products_sorted_stable_witness :
  exists products,
    search_products (fun _ => Response six_listings) "shirt" None = Ok products /\
    StronglySorted (fun a b => Float.leb (price a) (price b) = true) products.
Proof.
  pose (world := fun _ : string => Response six_listings).
  assert (Hw : all_caught world "shirt") by (intros site tag e _ _; discriminate).
  destruct (proj1 (search_products_sorted_stable world "shirt" None) Hw)
    as [products H].
  exists products. split; [exact H|].
  destruct (proj2 (search_products_sorted_stable world "shirt" None) products H)
    as [rs (_ & _ & Hs & _)].
  exact Hs.
Defined.

(** An exception that [search_site] does not catch leaves
    [search_products] too: here the parser rejects the page of one site. *)
Example search_products_passes_on :
  search_products
    (fun u => if u =? "https://www.walmart.com/search?q=shirt"
              then Uncaught ParserRejectedMarkup
              else Response six_listings)
    "shirt" None = Raise ParserRejectedMarkup.
Proof. vm_compute. reflexivity. Qed.

(** ** Filters on size and colour *)

Lemma optstr_ne_None (v : value) : v <> VNone -> optstr_ne None v = true.
Proof. destruct v; [congruence|reflexivity|reflexivity]. Qed.

Lemma filters_loop_size_color (p : Product) (items : list (string * value))
    (key : string) (v : value) :
  size p = None -> color p = None ->
  In (key, v) items -> key = "size" \/ key = "color" -> v <> VNone ->
  filters_loop p items <> Ok true.
Proof.
  intros Hs Hc Hin Hkey Hv. induction items as [|[k w] rest IH]; [destruct Hin|].
  cbn [filters_loop]. rewrite Hs, Hc.
  destruct Hin as [Heq|Hin].
  - injection Heq as -> ->. rewrite (optstr_ne_None Hv).
    destruct Hkey as [->| ->]; cbn; discriminate.
  - specialize (IH Hin).
    destruct (k =? "max_price"); [destruct (float_gt (price p) w) as [[]|]|];
      cbn [bind]; try discriminate;
      (destruct (k =? "min_price"); [destruct (float_lt (price p) w) as [[]|]|];
       cbn [bind]; try discriminate;
       destruct ((k =? "size") && optstr_ne None w); try discriminate;
       destruct ((k =? "color") && optstr_ne None w); try discriminate;
       exact IH).
Qed.

Lemma survivors_size_color (requests_get : string -> response)
    (site query : string) (items : list (string * value))
    (key : string) (v : value) :
  In (key, v) items -> key = "size" \/ key = "color" -> v <> VNone ->
  survivors requests_get site query (Some items) = [].
Proof.
  intros Hin Hkey Hv.
  destruct (survivors_scraped requests_get site query (Some items)) as [Hs Hm].
  destruct (survivors requests_get site query (Some items)) as [|p l];
    [reflexivity|exfalso].
  inversion Hs as [|? ? Hp _]; inversion Hm as [|? ? Hq _]; subst.
  destruct Hp as (_ & _ & Hsize & Hcolor & _).
  apply (@filters_loop_size_color p items key v Hsize Hcolor Hin Hkey Hv).
  destruct items; [destruct Hin|exact Hq].
Qed.

(** C9. Every product [search_site] returns has no size, no colour, is in
    stock, and has no shipping time and no return policy.  Hence a filter
    mapping with a value other than [None] under the key [size] or the key
    [color] leaves nothing: whatever [search_site] returns is the empty
    list, and so is whatever [search_products] returns; and they do return
    it, for every site of [WEBSITES], when no fetch ends in an exception
    that [search_site] does not catch. *)
Theorem search_site_defaults_and_size_color_filter
    (requests_get : string -> response) (query : string) :
  (forall site filters products p,
     search_site requests_get site query filters = Ok products ->
     In p products ->
     size p = None /\ color p = None /\ in_stock p = true /\
     shipping_time p = None /\ return_policy p = None) /\
  (forall items key v,
     In (key, v) items -> key = "size" \/ key = "color" -> v <> VNone ->
     (forall site products,
        search_site requests_get site query (Some items) = Ok products ->
        products = []) /\
     (forall products,
        search_products requests_get query (Some items) = Ok products ->
        products = []) /\
     (all_caught requests_get query ->
      (forall site, In site WEBSITES ->
         search_site requests_get site query (Some items) = Ok []) /\
      search_products requests_get query (Some items) = Ok [])).
Proof.
  split.
  - intros site filters products p H Hp.
    apply search_site_scraped in H. rewrite Forall_forall in H.
    destruct (H p Hp) as (_ & _ & H1 & H2 & H3 & H4 & H5). auto.
  - intros items key v Hin Hkey Hv.
    assert (Hnone : forall site,
              survivors requests_get site query (Some items) = [])
      by (intro site; eapply survivors_size_color; eassumption).
    assert (Hsite : forall site products,
              search_site requests_get site query (Some items) = Ok products ->
              products = []).
    { intros site products H. apply search_site_survivors in H.
      rewrite Hnone in H. now subst products. }
    split; [exact Hsite|]. split.
    + intros products H. eapply search_products_nothing; eassumption.
    + intro Hc. split.
      * intros site Hs. destruct (registered_tag Hs) as [tag Ht].
        destruct (@search_site_registered requests_get site tag query (Some items) Ht)
          as [products H]; [intro e; now apply Hc|].
        rewrite H. f_equal. eapply Hsite, H.
      * destruct (search_products_returns (Some items) Hc) as [products H].
        rewrite H. f_equal. eapply search_products_nothing; eassumption.
Qed.

Lemma search_site_defaults_and_size_color_filter_witness :
  search_products (fun _ => Response six_listings) "shirt"
    (Some [("max_price", VNum (Float.of_Z 100)); ("size", VStr "M")]) = Ok [].
Proof.
  refine (proj2 (proj2 (proj2 (proj2
            (@search_site_defaults_and_size_color_filter
               (fun _ => Response six_listings) "shirt")
            [("max_price", VNum (Float.of_Z 100)); ("size", VStr "M")]
            "size" (VStr "M") _ _ _)) _)).
  - right. left. reflexivity.
  - left. reflexivity.
  - discriminate.
  - intros site tag e _ _. discriminate.
Defined.

(** ** Failing fetches *)

(** The search addresses of two sites of [WEBSITES] differ. *)
Lemma search_url_distinct (s1 s2 t1 t2 query : string) :
  In s1 WEBSITES -> In s2 WEBSITES ->
  Str.lookup s1 search_query_url_tag = Some t1 ->
  Str.lookup s2 search_query_url_tag = Some t2 ->
  s1 <> s2 ->
  search_url s1 t1 query <> search_url s2 t2 query.
Proof.
  intros H1 H2 L1 L2 Hne. simpl in H1, H2.
  repeat (destruct H1 as [<-|H1]);
    repeat (destruct H2 as [<-|H2]);
    try contradiction; try congruence;
    unfold search_url; simpl; discriminate.
Qed.

Lemma search_site_fetch_fails (requests_get : string -> response)
    (site tag query : string) (filters : Filters) :
  Str.lookup site search_query_url_tag = Some tag ->
  requests_get (search_url site tag query) = RequestException ->
  search_site requests_get site query filters = Ok [].
Proof.
  intros Ht H. unfold search_site. now rewrite Ht, H.
Qed.

Lemma search_site_failing_elsewhere (requests_get : string -> response)
    (u site tag query : string) (filters : Filters) :
  Str.lookup site search_query_url_tag = Some tag ->
  search_url site tag query <> u ->
  search_site (failing_at u requests_get) site query filters
    = search_site requests_get site query filters.
Proof.
  intros Ht Hu. unfold search_site, failing_at. rewrite Ht.
  apply String.eqb_neq in Hu. now rewrite Hu.
Qed.

Lemma search_site_failing_here (requests_get : string -> response)
    (site tag query : string) (filters : Filters) :
  Str.lookup site search_query_url_tag = Some tag ->
  search_site (failing_at (search_url site tag query) requests_get)
    site query filters = Ok [].
Proof.
  intro Ht. apply search_site_fetch_fails with (tag := tag); [exact Ht|].
  unfold failing_at. now rewrite String.eqb_refl.
Qed.

Lemma filter_same_site (site : string) (r : list Product) :
  Forall (scraped site) r ->
  filter (fun p => negb (website p =? site)) r = [].
Proof.
  induction 1 as [|p r (_ & Hw & _) _ IH]; simpl; [reflexivity|].
  rewrite Hw, String.eqb_refl. exact IH.
Qed.

Lemma filter_other_site (site other : string) (r : list Product) :
  other <> site -> Forall (scraped other) r ->
  filter (fun p => negb (website p =? site)) r = r.
Proof.
  intro Hne. induction 1 as [|p r (_ & Hw & _) _ IH]; simpl; [reflexivity|].
  rewrite Hw. apply String.eqb_neq in Hne. rewrite Hne. simpl. now rewrite IH.
Qed.

(** With the fetch of [site] failing, the per-site lists are there again
    and concatenate to what the concatenation was without the products of
    [site]. *)
Lemma concat_failing (requests_get : string -> response)
    (site tag query : string) (filters : Filters) (sites : list string) :
  In site WEBSITES ->
  Str.lookup site search_query_url_tag = Some tag ->
  incl sites WEBSITES ->
  forall rs,
    Forall2 (fun s r => search_site requests_get s query filters = Ok r) sites rs ->
    exists rs',
      Forall2 (fun s r =>
                 search_site (failing_at (search_url site tag query) requests_get)
                   s query filters = Ok r) sites rs' /\
      List.concat rs' = filter (fun p => negb (website p =? site)) (List.concat rs).
Proof.
  intros Hsite Ht. induction sites as [|s sites IH]; intros Hincl rs H.
  - inversion H; subst. exists []. split; [constructor|reflexivity].
  - inversion H as [|? r ? rs0 Hr Hrs]; subst.
    assert (Hs : In s WEBSITES) by (apply Hincl; now left).
    destruct (IH (fun x Hx => Hincl x (or_intror Hx)) _ Hrs) as [rs' [Hrs' Hc]].
    destruct (string_dec s site) as [->|Hne].
    + exists ([] :: rs'). split.
      * constructor; [now apply search_site_failing_here|exact Hrs'].
      * simpl. rewrite filter_app, <- Hc.
        erewrite filter_same_site; [reflexivity|].
        eapply search_site_scraped, Hr.
    + destruct (registered_tag Hs) as [t Hts].
      exists (r :: rs'). split.
      * constructor; [|exact Hrs'].
        rewrite (@search_site_failing_elsewhere requests_get _ s t query filters Hts)
          by (apply search_url_distinct; assumption).
        exact Hr.
      * simpl. rewrite filter_app, <- Hc.
        erewrite filter_other_site; [reflexivity|exact Hne|].
        eapply search_site_scraped, Hr.
Qed.

(** C2. When the fetch of every site fails, [search_products] returns the
    empty list and raises nothing.  A failing fetch makes [search_site]
    return the empty list for that site; and in a network that differs only
    in that the fetch of one site fails, every other site's outcome is the
    same, and when [search_products] returned before, it returns now the
    former result without the products of the failing site, the others in
    their former order. *)
Theorem search_products_tolerates_failures (requests_get : string -> response)
    (query : string) (filters : Filters) :
  ((forall site tag,
      In site WEBSITES ->
      Str.lookup site search_query_url_tag = Some tag ->
      requests_get (search_url site tag query) = RequestException) ->
   search_products requests_get query filters = Ok []) /\
  (forall site tag,
     In site WEBSITES ->
     Str.lookup site search_query_url_tag = Some tag ->
     (requests_get (search_url site tag query) = RequestException ->
      search_site requests_get site query filters = Ok []) /\
     let failing := failing_at (search_url site tag query) requests_get in
     search_site failing site query filters = Ok [] /\
     (forall other,
        In other WEBSITES -> other <> site ->
        search_site failing other query filters
          = search_site requests_get other query filters) /\
     (forall products,
        search_products requests_get query filters = Ok products ->
        search_products failing query filters
          = Ok (filter (fun p => negb (website p =? site)) products))).
Proof.
  split.
  - intro Hfail.
    assert (Hsite : forall site, In site WEBSITES ->
              search_site requests_get site query filters = Ok []).
    { intros site Hs. destruct (registered_tag Hs) as [tag Ht].
      apply search_site_fetch_fails with (tag := tag); auto. }
    unfold search_products, WEBSITES. cbn [mapM].
    rewrite !Hsite by (simpl; tauto). reflexivity.
  - intros site tag Hs Ht. split; [now apply search_site_fetch_fails|].
    intro failing. split; [now apply search_site_failing_here|]. split.
    + intros other Ho Hne. destruct (registered_tag Ho) as [t Hto].
      apply search_site_failing_elsewhere with (tag := t); [exact Hto|].
      apply search_url_distinct; assumption.
    + intros products H.
      destruct (search_products_results _ _ _ H) as [rs [Hrs ->]].
      destruct (@concat_failing requests_get site tag query filters WEBSITES
                  Hs Ht (incl_refl _) rs Hrs) as [rs' [Hrs' Hc]].
      unfold failing. rewrite (search_products_of_results _ _ _ Hrs').
      f_equal. rewrite Hc. symmetry. apply filter_sort_by_key.
      eapply results_numeric, Hrs.
Qed.

Lemma search_products_tolerates_failures_witness :
  search_products (fun _ => RequestException) "red shirt" None = Ok [] /\
  search_site (failing_at (search_url "walmart.com" "search?q=" "red shirt")
                 (fun _ => Response six_listings))
    "walmart.com" "red shirt" None = Ok [].
Proof.
  split.
  - apply (proj1 (search_products_tolerates_failures
                    (fun _ => RequestException) "red shirt" None)).
    intros site tag _ _. reflexivity.
  - apply (proj1 (proj2 (proj2 (search_products_tolerates_failures
                    (fun _ => Response six_listings) "red shirt" None)
                    "walmart.com" "search?q="
                    (or_intror (or_introl eq_refl)) eq_refl))).
Defined.

(** * Further properties *)

(** ** [clean_url], all inputs *)

Lemma clean_url_shape (u : option string) (site : string) :
  empty_or_absolute (clean_url u site).
Proof.
  unfold empty_or_absolute, clean_url.
  destruct u as [link|]; [|now left].
  destruct link as [|c rest]; [now left|]. cbn [Str.truthy negb].
  destruct (Str.startswith (String c rest) "http://") eqn:H1; [now right; left|].
  destruct (Str.startswith (String c rest) "https://") eqn:H2; [now right; right|].
  right; right. reflexivity.
Qed.

Lemma clean_url_fixed (r site : string) :
  empty_or_absolute r -> clean_url (Some r) site = r.
Proof.
  unfold clean_url. intros [->|H]; [reflexivity|].
  destruct r as [|c rest]; [destruct H; discriminate|].
  cbn [Str.truthy negb]. destruct H as [H|H]; rewrite H; [reflexivity|].
  now rewrite orb_true_r.
Qed.

(** X1. Whatever the link (absent, empty or any string) and the site,
    [clean_url] returns the empty string or an address that starts with
    [http://] or [https://]; it returns the empty string exactly for an
    absent or empty link. *)
Theorem clean_url_empty_or_absolute (u : option string) (site : string) :
  empty_or_absolute (clean_url u site) /\
  (clean_url u site = "" <-> u = None \/ u = Some "").
Proof.
  split; [apply clean_url_shape|]. split.
  - destruct u as [link|]; [|now left]. destruct link as [|c rest]; [now right|].
    unfold clean_url. cbn [Str.truthy negb].
    destruct (Str.startswith (String c rest) "http://");
      destruct (Str.startswith (String c rest) "https://"); discriminate.
  - intros [->| ->]; reflexivity.
Qed.

(** X2. Cleaning is idempotent: a cleaned link is left as it is by a
    second cleaning, for whatever site. *)
Theorem clean_url_idempotent (u : option string) (site site' : string) :
  clean_url (Some (clean_url u site)) site' = clean_url u site.
Proof.
  apply clean_url_fixed, clean_url_shape.
Qed.

(** ** [clean_price], what the digits spell *)

Lemma re_sub_outside_app (class : ascii -> bool) (a b : string) :
  Str.re_sub_outside class (a ++ b)
    = Str.re_sub_outside class a ++ Str.re_sub_outside class b.
Proof.
  induction a as [|c a IH]; simpl; [reflexivity|].
  destruct (class c); simpl; now rewrite IH.
Qed.

Lemma digit_dot_in_comma_class (c : ascii) :
  digit_dot c = true -> digit_dot_comma c = true.
Proof.
  unfold digit_dot, digit_dot_comma. intros ->. reflexivity.
Qed.

(** The first substitution changes nothing for the second. *)
Lemma substitutions_collapse (s : string) :
  Str.re_sub_outside digit_dot (Str.re_sub_outside digit_dot_comma s)
    = Str.re_sub_outside digit_dot s.
Proof.
  induction s as [|c s IH]; simpl; [reflexivity|].
  destruct (digit_dot c) eqn:E.
  - rewrite (digit_dot_in_comma_class _ E). simpl. now rewrite E, IH.
  - destruct (digit_dot_comma c); simpl; [rewrite E|]; exact IH.
Qed.

Lemma clean_price_of_remainder (s1 s2 : string) :
  Str.re_sub_outside digit_dot s1 = Str.re_sub_outside digit_dot s2 ->
  clean_price s1 = clean_price s2.
Proof.
  intro H. unfold clean_price. now rewrite !substitutions_collapse, H.
Qed.

(** X3. A character that is neither a digit nor a period has no influence
    on the price, wherever it stands: currency signs, commas, letters,
    spaces and minus signs are all passed over. *)
Theorem clean_price_ignores_other_characters (a b : string) (c : ascii) :
  digit_dot c = false ->
  clean_price (a ++ String c b) = clean_price (a ++ b).
Proof.
  intro H. apply clean_price_of_remainder.
  rewrite !re_sub_outside_app. simpl. now rewrite H.
Qed.

Lemma clean_price_ignores_other_characters_witness :
  clean_price "12-34" = clean_price "1234".
Proof.
  exact (@clean_price_ignores_other_characters "12" "34" "-" eq_refl).
Defined.

Lemma digit_dot_cases (c : ascii) :
  (digit_dot c = true -> Str.is_digit c = false -> c = "."%char) /\
  (digit_dot c = false -> Str.is_digit c = false /\ Ascii.eqb c "." = false) /\
  (Str.is_digit c = true -> Ascii.eqb c "." = false).
Proof.
  unfold digit_dot. repeat split.
  - intros H1 H2. rewrite H2 in H1. simpl in H1. now apply Ascii.eqb_eq.
  - now apply orb_false_elim in H.
  - now apply orb_false_elim in H.
  - intro H. destruct (Ascii.eqb_spec c "."); [subst c; discriminate|reflexivity].
Qed.

Lemma count_digits_nonneg (s : string) : (0 <= count_digits s)%Z.
Proof.
  induction s as [|c s IH]; simpl; [lia|]. destruct (Str.is_digit c); lia.
Qed.

(** The four readings of a string see only its digits and periods. *)
Lemma readings_of_remainder (s : string) :
  let r := Str.re_sub_outside digit_dot s in
  count_digits r = count_digits s /\
  count_char "." r = count_char "." s /\
  (forall acc, digits_number acc r = digits_number acc s) /\
  digits_after_period r = digits_after_period s.
Proof.
  induction s as [|c s (IH1 & IH2 & IH3 & IH4)]; simpl; [repeat split|].
  destruct (digit_dot c) eqn:E; simpl.
  - rewrite IH1, IH2, IH4. repeat split; auto.
  - destruct (proj1 (proj2 (digit_dot_cases c)) E) as [Hd Hp].
    rewrite Hd, Hp. simpl. repeat split; auto.
Qed.

(** Reading digits off a string of digits and periods stops at the end or
    at the first period. *)
Lemma read_digits_stops (s : string) :
  forall acc n,
    all_chars digit_dot s = true ->
    match Float.read_digits s acc n with
    | (m, k, EmptyString) =>
        count_char "." s = 0 /\ m = digits_number acc s /\
        k = (n + count_digits s)%Z /\ digits_after_period s = 0%Z
    | (m, k, String c t) =>
        c = "."%char /\ all_chars digit_dot t = true /\
        count_char "." s = S (count_char "." t) /\
        digits_number acc s = digits_number m t /\
        (n + count_digits s = k + count_digits t)%Z /\
        digits_after_period s = count_digits t
    end.
Proof.
  induction s as [|c s IH]; intros acc n H; simpl.
  - repeat split; lia.
  - simpl in H. apply andb_prop in H. destruct H as [Hc Hs].
    destruct (Str.is_digit c) eqn:Hd.
    + specialize (IH (acc * 10 + Str.digit_value c)%Z (n + 1)%Z Hs).
      rewrite (proj2 (proj2 (digit_dot_cases c)) Hd).
      destruct (Float.read_digits s _ _) as [[m k] [|c' t]].
      * destruct IH as (H1 & H2 & H3 & H4). repeat split; auto; lia.
      * destruct IH as (H1 & H2 & H3 & H4 & H5 & H6). repeat split; auto; lia.
    + pose proof (proj1 (digit_dot_cases c) Hc Hd) as ->.
      simpl. repeat split; auto.
Qed.

Lemma float_of_str_remainder (r : string) :
  all_chars digit_dot r = true ->
  Float.float_of_str r
    = if (0 <? count_digits r)%Z && (count_char "." r <=? 1)%nat
      then Ok (Float.decimal (digits_number 0 r) (digits_after_period r))
      else Raise ValueError.
Proof.
  intro H. unfold Float.float_of_str.
  pose proof (read_digits_stops r 0%Z 0%Z H) as H1.
  pose proof (count_digits_nonneg r) as Hr.
  destruct (Float.read_digits r 0 0) as [[m1 n1] [|c r2]].
  - destruct H1 as (Hp & Hm & Hn & Ha). rewrite Hp, Ha, Hm. cbn [Nat.leb].
    rewrite andb_true_r. replace n1 with (count_digits r) by lia.
    destruct (Z.eqb_spec (count_digits r) 0) as [E|E];
      destruct (Z.ltb_spec 0 (count_digits r)); try lia; reflexivity.
  - destruct H1 as (-> & Ht & Hp & Hm & Hn & Ha). cbn [Ascii.eqb Bool.eqb].
    pose proof (read_digits_stops r2 m1 0%Z Ht) as H2.
    pose proof (count_digits_nonneg r2) as Hr2.
    destruct (Float.read_digits r2 m1 0) as [[m2 n2] [|c' r3]].
    + destruct H2 as (Hp2 & Hm2 & Hn2 & _).
      rewrite Hp, Hp2, Ha, Hm, <- Hm2. cbn [Nat.leb]. rewrite andb_true_r.
      replace (count_digits r2) with n2 by lia.
      destruct (Z.eqb_spec (n1 + n2) 0) as [E|E];
        destruct (Z.ltb_spec 0 (count_digits r)); try lia; reflexivity.
    + destruct H2 as (_ & _ & Hp2 & _).
      rewrite Hp, Hp2. cbn [Nat.leb]. now rewrite andb_false_r.
Qed.

(** X4. What [clean_price] returns, for every string: when the string has
    at least one digit and at most one period, the float nearest to the
    number its digits spell, with as many decimals as there are digits
    after the period; in every other case 0. *)
Theorem clean_price_decimal (price_str : string) :
  clean_price price_str
    = Ok (if (0 <? count_digits price_str)%Z
             && (count_char "." price_str <=? 1)%nat
          then Float.decimal (digits_number 0 price_str)
                 (digits_after_period price_str)
          else Float.zero).
Proof.
  unfold clean_price. rewrite substitutions_collapse.
  rewrite float_of_str_remainder by apply re_sub_outside_all.
  destruct (readings_of_remainder price_str) as (H1 & H2 & H3 & H4).
  rewrite H1, H2, H3, H4.
  destruct ((0 <? count_digits price_str)%Z
            && (count_char "." price_str <=? 1)%nat); reflexivity.
Qed.

(** ** [matches_filters], item by item *)

Lemma filters_loop_forallb (p : Product) (items : list (string * value)) :
  forallb (fun item => negb (is_bound item) || is_number (snd item)) items = true ->
  filters_loop p items = Ok (forallb (passes p) items).
Proof.
  induction items as [|[k v] rest IH]; intro H; [reflexivity|].
  cbn [forallb] in H. apply andb_prop in H. destruct H as [Hkv Hrest].
  specialize (IH Hrest). cbn [filters_loop forallb passes].
  unfold is_bound in Hkv. cbn [fst snd] in Hkv.
  destruct (String.eqb_spec k "max_price") as [->|Hmax].
  - destruct v as [|m|s]; try discriminate. cbn.
    destruct (Float.ltb m (price p)); [reflexivity|exact IH].
  - cbn [bind]. destruct (String.eqb_spec k "min_price") as [->|Hmin].
    + destruct v as [|m|s]; try discriminate. cbn.
      destruct (Float.ltb (price p) m); [reflexivity|exact IH].
    + cbn [bind]. destruct (String.eqb_spec k "size") as [->|Hsize]; cbn [andb].
      * destruct (optstr_ne (size p) v); [reflexivity|]. cbn. exact IH.
      * destruct (k =? "color"); cbn [andb]; [|exact IH].
        destruct (optstr_ne (color p) v); [reflexivity|exact IH].
Qed.

(** X5. When every [max_price] and [min_price] of the filter mapping holds
    a number, [matches_filters] returns, and its answer is the conjunction
    over the items: not above a [max_price], not below a [min_price], equal
    to a [size] and to a [color]; items under any other key ask nothing.
    No mapping and the empty mapping let every product pass. *)
Theorem matches_filters_item_by_item (p : Product) (items : list (string * value)) :
  (forallb (fun item => negb (is_bound item) || is_number (snd item)) items = true ->
   matches_filters p (Some items) = Ok (forallb (passes p) items)) /\
  matches_filters p None = Ok true /\
  matches_filters p (Some []) = Ok true.
Proof.
  split; [|split; reflexivity].
  intro H. destruct items as [|item rest]; [reflexivity|].
  now apply filters_loop_forallb.
Qed.

Lemma matches_filters_item_by_item_witness :
  matches_filters a_product
    (Some [("max_price", VNum (Float.of_Z 20)); ("brand", VStr "Acme");
           ("min_price", VNum (Float.of_Z 10))]) = Ok true.
Proof.
  exact (proj1 (matches_filters_item_by_item a_product
                  [("max_price", VNum (Float.of_Z 20)); ("brand", VStr "Acme");
                   ("min_price", VNum (Float.of_Z 10))]) eq_refl).
Defined.

(** ** Filters that let nothing pass *)

Lemma filters_loop_outcomes (p : Product) (items : list (string * value)) :
  (exists b, filters_loop p items = Ok b) \/ filters_loop p items = Raise TypeError.
Proof.
  induction items as [|[k v] rest IH]; [left; now exists true|].
  cbn [filters_loop].
  destruct (k =? "max_price").
  - destruct v as [|m|s]; cbn; try (now right).
    destruct (Float.ltb m (price p)); [left; now exists false|].
    destruct (k =? "min_price"); cbn.
    + destruct (Float.ltb (price p) m); [left; now exists false|].
      destruct (_ && _); [left; now exists false|].
      destruct (_ && _); [left; now exists false|exact IH].
    + destruct (_ && _); [left; now exists false|].
      destruct (_ && _); [left; now exists false|exact IH].
  - cbn [bind]. destruct (k =? "min_price").
    + destruct v as [|m|s]; cbn; try (now right).
      destruct (Float.ltb (price p) m); [left; now exists false|].
      destruct (_ && _); [left; now exists false|].
      destruct (_ && _); [left; now exists false|exact IH].
    + cbn [bind].
      destruct (_ && _); [left; now exists false|].
      destruct (_ && _); [left; now exists false|exact IH].
Qed.

Lemma filters_loop_bad_bound (p : Product) (items : list (string * value))
    (key : string) (v : value) :
  In (key, v) items -> key = "max_price" \/ key = "min_price" ->
  is_number v = false ->
  filters_loop p items <> Ok true.
Proof.
  intros Hin Hkey Hv. induction items as [|[k w] rest IH]; [destruct Hin|].
  cbn [filters_loop].
  destruct Hin as [Heq|Hin].
  - injection Heq as -> ->.
    destruct Hkey as [->| ->]; destruct v; try discriminate; cbn; discriminate.
  - specialize (IH Hin).
    destruct (k =? "max_price"); [destruct (float_gt (price p) w) as [[]|]|];
      cbn [bind]; try discriminate;
      (destruct (k =? "min_price"); [destruct (float_lt (price p) w) as [[]|]|];
       cbn [bind]; try discriminate;
       destruct (_ && _); try discriminate;
       destruct (_ && _); try discriminate;
       exact IH).
Qed.

Lemma survivors_none (requests_get : string -> response)
    (site query : string) (filters : Filters) :
  (forall p, matches_filters p filters <> Ok true) ->
  survivors requests_get site query filters = [].
Proof.
  intro H.
  destruct (survivors_scraped requests_get site query filters) as [_ Hm].
  destruct (survivors requests_get site query filters) as [|p l]; [reflexivity|].
  inversion Hm as [|? ? Hp _]; subst. now elim (H p).
Qed.

(** X6. A [max_price] or [min_price] whose value is not a number (a
    string, [None]) makes [matches_filters] answer [False] or raise
    [TypeError] for every product, never [True]; the loop of [search_site]
    swallows the exception, so whatever [search_products] returns is the
    empty list, and it does return it, without any error, when no fetch
    ends in an exception that [search_site] does not catch. *)
Theorem search_products_bound_not_a_number (requests_get : string -> response)
    (query : string) (items : list (string * value)) (key : string) (v : value) :
  In (key, v) items -> key = "max_price" \/ key = "min_price" ->
  is_number v = false ->
  (forall p, matches_filters p (Some items) = Ok false \/
             matches_filters p (Some items) = Raise TypeError) /\
  (forall products,
     search_products requests_get query (Some items) = Ok products ->
     products = []) /\
  (all_caught requests_get query ->
   search_products requests_get query (Some items) = Ok []).
Proof.
  intros Hin Hkey Hv.
  assert (Hnot : forall p, matches_filters p (Some items) <> Ok true).
  { intro p. destruct items as [|item rest]; [destruct Hin|].
    cbn [matches_filters]. eapply filters_loop_bad_bound; eassumption. }
  assert (Hnone : forall site, survivors requests_get site query (Some items) = [])
    by (intro site; now apply survivors_none).
  split; [|split].
  - intro p. specialize (Hnot p).
    destruct items as [|item rest]; [destruct Hin|]. cbn [matches_filters] in *.
    destruct (filters_loop_outcomes p (item :: rest)) as [[[|] Hb]|Hr];
      [contradiction|now left|now right].
  - intros products H. eapply search_products_nothing; eassumption.
  - intro Hc. destruct (search_products_returns (Some items) Hc) as [products H].
    rewrite H. f_equal. eapply search_products_nothing; eassumption.
Qed.

Lemma search_products_bound_not_a_number_witness :
  search_products (fun _ => Response six_listings) "shirt"
    (Some [("max_price", VStr "50")]) = Ok [].
Proof.
  refine (proj2 (proj2 (@search_products_bound_not_a_number
                          (fun _ => Response six_listings) "shirt"
                          [("max_price", VStr "50")] "max_price" (VStr "50")
                          (or_introl eq_refl) (or_introl eq_refl) eq_refl)) _).
  intros site tag e _ _. discriminate.
Defined.

(** ** What [search_products] returns *)

Lemma filters_loop_true_passes (p : Product) (items : list (string * value)) :
  filters_loop p items = Ok true ->
  forall item, In item items -> passes p item = true.
Proof.
  induction items as [|[k v] rest IH]; intros H item Hin; [destruct Hin|].
  cbn [filters_loop] in H.
  assert (Hhead : passes p (k, v) = true /\ filters_loop p rest = Ok true).
  { cbn [passes].
    destruct (String.eqb_spec k "max_price") as [->|Hmax].
    - destruct v as [|m|s]; try discriminate. cbn in H |- *.
      destruct (Float.ltb m (price p)); [discriminate|]. now split.
    - cbn [bind] in H. destruct (String.eqb_spec k "min_price") as [->|Hmin].
      + destruct v as [|m|s]; try discriminate. cbn in H |- *.
        destruct (Float.ltb (price p) m); [discriminate|]. now split.
      + cbn [bind] in H.
        destruct (String.eqb_spec k "size") as [->|Hsize]; cbn [andb] in H.
        * destruct (optstr_ne (size p) v); [discriminate|]. cbn in H. now split.
        * destruct (k =? "color"); cbn [andb] in H; [|now split].
          destruct (optstr_ne (color p) v); [discriminate|]. now split. }
  destruct Hhead as [Hkv Hrest].
  destruct Hin as [<-|Hin]; [exact Hkv|]. now apply IH.
Qed.

(** X7. Every product [search_products] returns was accepted by
    [matches_filters]; in particular its price is not above any numeric
    [max_price] of the mapping and not below any numeric [min_price]. *)
Theorem search_products_respects_filters (requests_get : string -> response)
    (query : string) (filters : Filters) (products : list Product) (p : Product) :
  search_products requests_get query filters = Ok products ->
  In p products ->
  matches_filters p filters = Ok true /\
  (forall items m,
     filters = Some items -> In ("max_price", VNum m) items ->
     Float.ltb m (price p) = false) /\
  (forall items m,
     filters = Some items -> In ("min_price", VNum m) items ->
     Float.ltb (price p) m = false).
Proof.
  intros H Hp.
  destruct (@search_products_member requests_get query filters products p H Hp)
    as [site [_ Hs]].
  destruct (survivors_scraped requests_get site query filters) as [_ Hm].
  rewrite Forall_forall in Hm. specialize (Hm p Hs).
  split; [exact Hm|].
  assert (Hpass : forall items item,
            filters = Some items -> In item items -> passes p item = true).
  { intros items item -> Hin. destruct items as [|i rest]; [destruct Hin|].
    cbn [matches_filters] in Hm.
    now apply (@filters_loop_true_passes p (i :: rest) Hm). }
  split; intros items m Hf Hin; specialize (Hpass items _ Hf Hin);
    cbn in Hpass; now apply negb_true_iff in Hpass.
Qed.

Lemma search_products_respects_filters_witness :
  exists products,
    search_products (fun _ => Response six_listings) "shirt"
      (Some [("max_price", VNum (Float.of_Z 45))]) = Ok products /\
    Forall (fun p => Float.ltb (Float.of_Z 45) (price p) = false) products.
Proof.
  pose (world := fun _ : string => Response six_listings).
  pose (filters := Some [("max_price", VNum (Float.of_Z 45))]).
  destruct (search_products world "shirt" filters) as [products|e] eqn:H.
  - exists products. split; [exact H|].
    apply Forall_forall. intros p Hp.
    exact (proj1 (proj2 (@search_products_respects_filters world "shirt" filters
                           products p H Hp))
             [("max_price", VNum (Float.of_Z 45))] (Float.of_Z 45)
             eq_refl (or_introl eq_refl)).
  - exfalso. vm_compute in H. discriminate.
Defined.

(** ** Stripping white space *)

Lemma rev_append_twice (s : string) :
  forall a b, Str.rev_append (Str.rev_append s a) b = Str.rev_append a (s ++ b).
Proof.
  induction s as [|c s IH]; intros a b; simpl; [reflexivity|].
  now rewrite IH.
Qed.

Lemma append_empty_r (s : string) : s ++ "" = s.
Proof.
  induction s as [|c s IH]; simpl; [reflexivity|]. now rewrite IH.
Qed.

Lemma rev_involutive (s : string) : Str.rev (Str.rev s) = s.
Proof.
  unfold Str.rev. rewrite rev_append_twice. simpl. apply append_empty_r.
Qed.

Lemma rev_append_app (x y : string) :
  forall acc, Str.rev_append (x ++ y) acc = Str.rev_append y (Str.rev_append x acc).
Proof.
  induction x as [|c x IH]; intro acc; simpl; [reflexivity|]. now rewrite IH.
Qed.

Lemma rev_snoc (x : string) (c : ascii) :
  Str.rev (x ++ String c "") = String c (Str.rev x).
Proof.
  unfold Str.rev. now rewrite rev_append_app.
Qed.

Lemma rev_cons (x : string) (c : ascii) :
  Str.rev (String c x) = Str.rev x ++ String c "".
Proof.
  rewrite <- (rev_involutive (Str.rev x ++ String c "")).
  now rewrite rev_snoc, rev_involutive.
Qed.

Lemma lstrip_idempotent (s : string) : Str.lstrip (Str.lstrip s) = Str.lstrip s.
Proof.
  induction s as [|c s IH]; simpl; [reflexivity|].
  destruct (Str.is_space c) eqn:E; [exact IH|]. simpl. now rewrite E.
Qed.

Lemma rstrip_idempotent (s : string) : Str.rstrip (Str.rstrip s) = Str.rstrip s.
Proof.
  unfold Str.rstrip. now rewrite rev_involutive, lstrip_idempotent.
Qed.

Lemma lstrip_snoc (x : string) (c : ascii) :
  Str.is_space c = false ->
  exists y, Str.lstrip (x ++ String c "") = y ++ String c "".
Proof.
  intro H. induction x as [|d x IH]; simpl.
  - rewrite H. now exists "".
  - destruct (Str.is_space d); [exact IH|]. now exists (String d x).
Qed.

(** Stripping at the right leaves a stripped left end alone. *)
Lemma lstrip_rstrip (t : string) :
  Str.lstrip t = t -> Str.lstrip (Str.rstrip t) = Str.rstrip t.
Proof.
  intro H. destruct t as [|c t]; [reflexivity|].
  assert (Hc : Str.is_space c = false).
  { simpl in H. destruct (Str.is_space c) eqn:E; [|reflexivity].
    exfalso.
    assert (Hlen : forall s, String.length (Str.lstrip s) <= String.length s).
    { induction s as [|d s IHs]; simpl; [lia|].
      destruct (Str.is_space d); simpl; lia. }
    specialize (Hlen t). rewrite H in Hlen. simpl in Hlen. lia. }
  unfold Str.rstrip. rewrite rev_cons.
  destruct (lstrip_snoc (Str.rev t) c Hc) as [y ->].
  rewrite rev_snoc. simpl. now rewrite Hc.
Qed.

Lemma strip_stripped (s : string) :
  Str.lstrip (Str.strip s) = Str.strip s /\
  Str.rstrip (Str.strip s) = Str.strip s.
Proof.
  unfold Str.strip. split.
  - apply lstrip_rstrip, lstrip_idempotent.
  - apply rstrip_idempotent.
Qed.

(** ** The products of [search_site] *)

(** A product comes from a stripped text, a cleaned price and a cleaned
    link, with the defaults in the other fields. *)
Lemma loop_step_built (site : string) (site_selectors : Selectors)
    (filters : Filters) (item : node) (p : Product) :
  In p (loop_step site site_selectors filters [] item) ->
  exists text href x,
    p = {| name := Str.strip text; price := x; website := site;
           url := clean_url href site; size := None; color := None;
           description := None; in_stock := true; shipping_time := None;
           return_policy := None |}.
Proof.
  unfold loop_step, scrape_item.
  destruct (find_by_class (sel_title site_selectors) item) as [name_elem|];
    [|intros []].
  destruct (find_by_class (sel_price site_selectors) item) as [price_elem|];
    [|intros []].
  destruct (find_by_name (sel_url site_selectors) item) as [url_elem|];
    [|intros []].
  destruct (clean_price (Str.strip (get_text price_elem))) as [x|e];
    cbn [bind]; [|intros []].
  destruct (Float.ltb Float.zero x); [|intros []].
  match goal with
  | |- context [matches_filters ?q filters] =>
      destruct (matches_filters q filters) as [[|]|e]; cbn [bind]
  end; [|intros []|intros []].
  intros [<-|[]]. now exists (get_text name_elem), (get_attr "href" url_elem), x.
Qed.

Lemma survivors_built (requests_get : string -> response)
    (site query : string) (filters : Filters) (p : Product) :
  In p (survivors requests_get site query filters) ->
  (site = "amazon.com" \/ site = "walmart.com") /\
  exists text href x,
    p = {| name := Str.strip text; price := x; website := site;
           url := clean_url href site; size := None; color := None;
           description := None; in_stock := true; shipping_time := None;
           return_policy := None |}.
Proof.
  unfold survivors.
  destruct (Str.lookup site search_query_url_tag) as [tag|]; [|intros []].
  destruct (requests_get (search_url site tag query)) as [|soup|e];
    [intros []| |intros []].
  destruct (Str.lookup site selectors) as [site_selectors|] eqn:Hsel; [|intros []].
  intro Hp. apply in_flat_map in Hp. destruct Hp as [item [_ Hp]].
  split; [|eapply loop_step_built, Hp].
  unfold selectors in Hsel. cbn [Str.lookup] in Hsel.
  destruct (String.eqb_spec site "amazon.com"); [now left|].
  destruct (String.eqb_spec site "walmart.com"); [now right|discriminate].
Qed.

Lemma survivors_at_most (requests_get : string -> response)
    (site query : string) (filters : Filters) :
  site <> "amazon.com" -> site <> "walmart.com" ->
  survivors requests_get site query filters = [].
Proof.
  intros H1 H2.
  destruct (survivors requests_get site query filters) as [|p l] eqn:E;
    [reflexivity|exfalso].
  destruct (@survivors_built requests_get site query filters p) as [[H|H] _];
    [rewrite E; now left| |]; contradiction.
Qed.

(** X8. The products of [search_products] come from the two sites that
    have extraction rules, [amazon.com] and [walmart.com], at most 5 from
    each: the result never has more than 10 products, whatever the five
    sites answer. *)
Theorem search_products_two_sites (requests_get : string -> response)
    (query : string) (filters : Filters) (products : list Product) :
  search_products requests_get query filters = Ok products ->
  (List.length products <= 10)%nat /\
  forall p, In p products ->
    website p = "amazon.com" \/ website p = "walmart.com".
Proof.
  intro H. split.
  - destruct (search_products_results _ _ _ H) as [rs [Hrs ->]].
    rewrite (Permutation_length (sort_by_key_perm price (List.concat rs))).
    unfold WEBSITES in Hrs.
    repeat match goal with
           | Hf : Forall2 _ (_ :: _) _ |- _ =>
               inversion Hf as [|? ? ? ? ?Hs ?Hrest]; subst; clear Hf
           | Hf : Forall2 _ [] _ |- _ => inversion Hf; subst; clear Hf
           end.
    repeat match goal with
           | Hs : search_site _ _ _ _ = Ok _ |- _ =>
               apply search_site_survivors in Hs; subst
           end.
    cbn [List.concat]. rewrite !length_app.
    rewrite (@survivors_at_most requests_get "target.com") by discriminate.
    rewrite (@survivors_at_most requests_get "ebay.com") by discriminate.
    rewrite (@survivors_at_most requests_get "flipkart.com") by discriminate.
    pose proof (firstn_le_length 5 (survivors requests_get "amazon.com" query filters)).
    pose proof (firstn_le_length 5 (survivors requests_get "walmart.com" query filters)).
    rewrite !firstn_nil. cbn [List.length]. lia.
  - intros p Hp.
    destruct (@search_products_member requests_get query filters products p H Hp)
      as [site [_ Hs]].
    destruct (survivors_built _ _ _ _ _ Hs) as [Hsite [text [href [x ->]]]].
    exact Hsite.
Qed.

Lemma search_products_two_sites_witness :
  exists products,
    search_products (fun _ => Response six_listings) "shirt" None = Ok products /\
    (List.length products <= 10)%nat.
Proof.
  pose (world := fun _ : string => Response six_listings).
  destruct (search_products world "shirt" None) as [products|e] eqn:H.
  - exists products. split; [exact H|].
    exact (proj1 (@search_products_two_sites world "shirt" None products H)).
  - exfalso. vm_compute in H. discriminate.
Defined.

(** X9. Every product [search_products] returns is well formed: its price
    is greater than 0, its name has no white space at either end, its
    address is empty or starts with [http://] or [https://], and it is
    marked in stock. *)
Theorem search_products_well_formed (requests_get : string -> response)
    (query : string) (filters : Filters) (products : list Product) (p : Product) :
  search_products requests_get query filters = Ok products ->
  In p products ->
  Float.ltb Float.zero (price p) = true /\
  Str.lstrip (name p) = name p /\ Str.rstrip (name p) = name p /\
  empty_or_absolute (url p) /\
  in_stock p = true.
Proof.
  intros H Hp.
  destruct (@search_products_member requests_get query filters products p H Hp)
    as [site [_ Hs]].
  destruct (survivors_scraped requests_get site query filters) as [Hsc _].
  rewrite Forall_forall in Hsc. destruct (Hsc p Hs) as [Hprice _].
  split; [exact Hprice|].
  destruct (survivors_built _ _ _ _ _ Hs) as [_ [text [href [x ->]]]].
  cbn [name url in_stock].
  destruct (strip_stripped text) as [Hl Hr].
  repeat split; auto. apply clean_url_shape.
Qed.

Lemma search_products_well_formed_witness :
  exists products,
    search_products (fun _ => Response six_listings) "shirt" None = Ok products /\
    Forall (fun p => Float.ltb Float.zero (price p) = true) products.
Proof.
  pose (world := fun _ : string => Response six_listings).
  destruct (search_products world "shirt" None) as [products|e] eqn:H.
  - exists products. split; [exact H|].
    apply Forall_forall. intros p Hp.
    exact (proj1 (@search_products_well_formed world "shirt" None products p H Hp)).
  - exfalso. vm_compute in H. discriminate.
Defined.

(** ** Sites outside the registry *)

Lemma tag_missing (site : string) :
  Str.lookup site search_query_url_tag = None <-> ~ In site WEBSITES.
Proof.
  unfold search_query_url_tag, WEBSITES. cbn [Str.lookup In].
  destruct (String.eqb_spec site "amazon.com");
    [split; [discriminate|intro H; elim H; auto]|].
  destruct (String.eqb_spec site "walmart.com");
    [split; [discriminate|intro H; elim H; auto]|].
  destruct (String.eqb_spec site "target.com");
    [split; [discriminate|intro H; elim H; auto]|].
  destruct (String.eqb_spec site "ebay.com");
    [split; [discriminate|intro H; elim H; auto 6]|].
  destruct (String.eqb_spec site "flipkart.com");
    [split; [discriminate|intro H; elim H; auto 7]|].
  split; [|reflexivity]. intros _ H.
  repeat (destruct H as [H|H]; [congruence|]). exact H.
Qed.

(** X10. [search_site] raises in two cases only.  For a site that is not
    one of [WEBSITES] it raises [KeyError], whatever the network, which is
    not asked.  For a site of [WEBSITES] it raises exactly when the request
    or the parser raised an exception that is not a [RequestException], and
    it is that exception: a [RequestException] and a parsed page never make
    it raise. *)
Theorem search_site_key_error (requests_get : string -> response)
    (site query : string) (filters : Filters) :
  (~ In site WEBSITES ->
   search_site requests_get site query filters = Raise KeyError) /\
  (forall e, search_site requests_get site query filters = Raise e ->
     (e = KeyError /\ ~ In site WEBSITES) \/
     (In site WEBSITES /\
      exists tag,
        Str.lookup site search_query_url_tag = Some tag /\
        requests_get (search_url site tag query) = Uncaught e)) /\
  (forall tag,
     Str.lookup site search_query_url_tag = Some tag ->
     (forall e, requests_get (search_url site tag query) <> Uncaught e) ->
     exists products, search_site requests_get site query filters = Ok products).
Proof.
  split; [|split].
  - intro H. apply tag_missing in H. unfold search_site. now rewrite H.
  - intros e H.
    destruct (Str.lookup site search_query_url_tag) as [tag|] eqn:Ht.
    + right. split.
      * destruct (in_dec string_dec site WEBSITES) as [Hin|Hout]; [exact Hin|].
        apply tag_missing in Hout. congruence.
      * exists tag. split; [reflexivity|].
        unfold search_site in H. rewrite Ht in H.
        destruct (requests_get (search_url site tag query)) as [|soup|e'];
          [discriminate| |now injection H as ->].
        destruct (Str.lookup site selectors); discriminate.
    + left. unfold search_site in H. rewrite Ht in H. injection H as <-.
      split; [reflexivity|now apply tag_missing].
  - intros tag Ht H. now apply search_site_registered with (tag := tag).
Qed.

Lemma search_site_key_error_witness :
  search_site (fun _ => Response six_listings) "shop.example" "shirt" None
    = Raise KeyError /\
  exists products,
    search_site (fun _ => RequestException) "ebay.com" "shirt" None = Ok products.
Proof.
  split.
  - apply (proj1 (search_site_key_error (fun _ => Response six_listings)
                    "shop.example" "shirt" None)).
    apply tag_missing. reflexivity.
  - apply (proj2 (proj2 (search_site_key_error (fun _ => RequestException)
                           "ebay.com" "shirt" None))
             "sch/i.html?_nkw=" eq_refl).
    discriminate.
Defined.

(** ** One product per container *)

Lemma loop_step_length (site : string) (site_selectors : Selectors)
    (filters : Filters) (item : node) :
  (List.length (loop_step site site_selectors filters [] item) <= 1)%nat.
Proof.
  unfold loop_step.
  destruct (scrape_item_cases site site_selectors filters [] item)
    as [[H|[e H]]|[p [_ [_ H]]]].
  - rewrite H. simpl. lia.
  - rewrite H. simpl. lia.
  - rewrite (H []). simpl. lia.
Qed.

Lemma flat_map_length_le (A B : Type) (f : A -> list B) (l : list A) :
  (forall a, List.length (f a) <= 1)%nat ->
  (List.length (flat_map f l) <= List.length l)%nat.
Proof.
  intro H. induction l as [|a l IH]; simpl; [lia|].
  rewrite length_app. specialize (H a). lia.
Qed.

(** X11. A listing container gives at most one product: the list
    [search_site] returns for a page is never longer than the number of
    containers the page has for the site. *)
Theorem search_site_one_per_container (requests_get : string -> response)
    (site tag query : string) (filters : Filters) (soup : node)
    (site_selectors : Selectors) (products : list Product) :
  Str.lookup site search_query_url_tag = Some tag ->
  requests_get (search_url site tag query) = Response soup ->
  Str.lookup site selectors = Some site_selectors ->
  search_site requests_get site query filters = Ok products ->
  (List.length products
   <= List.length (find_all_by_class (sel_container site_selectors) soup))%nat.
Proof.
  intros Ht Hg Hs H. apply search_site_survivors in H. subst products.
  unfold survivors. rewrite Ht, Hg, Hs.
  rewrite length_firstn.
  eapply Nat.le_trans; [apply Nat.le_min_r|].
  apply flat_map_length_le. intro item. apply loop_step_length.
Qed.

Lemma search_site_one_per_container_witness :
  exists products,
    search_site (fun _ => Response listings_without_href) "walmart.com" "shirt" None
      = Ok products /\
    (List.length products <= 2)%nat.
Proof.
  pose (world := fun _ : string => Response listings_without_href).
  destruct (search_site world "walmart.com" "shirt" None) as [products|e] eqn:H.
  - exists products. split; [exact H|].
    exact (@search_site_one_per_container world "walmart.com" "search?q=" "shirt"
             None listings_without_href
             {| sel_container := "search-result-product";
                sel_title := "product-title-link";
                sel_price := "price-main";
                sel_url := "product-title-link" |}
             products eq_refl eq_refl eq_refl H).
  - exfalso. vm_compute in H. discriminate.
Defined.

(** ** [estimate_shipping], by the time left *)

Lemma timedelta_days_bounds (delta k : Z) :
  ((k * day <= delta -> k <= timedelta_days delta) /\
   (delta < k * day -> timedelta_days delta < k))%Z.
Proof.
  unfold timedelta_days, day. split; intro H.
  - apply Z.div_le_lower_bound; lia.
  - apply Z.div_lt_upper_bound; lia.
Qed.

Ltac decide_days :=
  unfold estimate_shipping, shipping_options; cbn [filter snd days];
  repeat match goal with
         | |- context [(?d <=? ?x)%Z] => destruct (Z.leb_spec d x); try lia
         end;
  vm_compute; reflexivity.

(** X12. The estimate for a target date is decided by the whole days left.
    With less than one day nothing qualifies; from one day on overnight
    qualifies and is the cheapest; from two days on expedited qualifies too
    and is the cheapest; from five days on all three qualify and standard is
    the cheapest. *)
Theorem estimate_shipping_by_days (product : Product) (zip_code : string)
    (target_date now : datetime) :
  ((target_date - now < day)%Z ->
   estimate_shipping product zip_code (Some target_date) now
     = Deadline [] false None) /\
  ((day <= target_date - now < 2 * day)%Z ->
   estimate_shipping product zip_code (Some target_date) now
     = Deadline [overnight_option] true (Some overnight_option)) /\
  ((2 * day <= target_date - now < 5 * day)%Z ->
   estimate_shipping product zip_code (Some target_date) now
     = Deadline [expedited_option; overnight_option] true (Some expedited_option)) /\
  ((5 * day <= target_date - now)%Z ->
   estimate_shipping product zip_code (Some target_date) now
     = Deadline [standard_option; expedited_option; overnight_option] true
         (Some standard_option)).
Proof.
  pose proof (timedelta_days_bounds (target_date - now) 1) as [L1 U1].
  pose proof (timedelta_days_bounds (target_date - now) 2) as [L2 U2].
  pose proof (timedelta_days_bounds (target_date - now) 5) as [L5 U5].
  repeat split; intro H.
  - assert (timedelta_days (target_date - now) < 1)%Z by (apply U1; lia).
    decide_days.
  - assert (1 <= timedelta_days (target_date - now) < 2)%Z
      by (split; [apply L1|apply U2]; lia).
    decide_days.
  - assert (2 <= timedelta_days (target_date - now) < 5)%Z
      by (split; [apply L2|apply U5]; lia).
    decide_days.
  - assert (5 <= timedelta_days (target_date - now))%Z by (apply L5; lia).
    decide_days.
Qed.

Lemma estimate_shipping_by_days_witness :
  estimate_shipping a_product "94110" (Some day) 0%Z
    = Deadline [overnight_option] true (Some overnight_option) /\
  estimate_shipping a_product "94110" (Some (day - 1)%Z) 0%Z
    = Deadline [] false None.
Proof.
  split.
  - apply (proj1 (proj2 (estimate_shipping_by_days a_product "94110" day 0%Z))).
    unfold day. lia.
  - apply (proj1 (estimate_shipping_by_days a_product "94110" (day - 1)%Z 0%Z)).
    unfold day. lia.
Defined.

(** ** [check_promo], the letter case and the table *)

Lemma upper_char_idempotent (c : ascii) :
  Str.upper_char (Str.upper_char c) = Str.upper_char c.
Proof.
  destruct c as [[] [] [] [] [] [] [] []]; reflexivity.
Qed.

Lemma upper_char_lower_char (c : ascii) :
  Str.upper_char (App.lower_char c) = Str.upper_char c.
Proof.
  destruct c as [[] [] [] [] [] [] [] []]; reflexivity.
Qed.

Lemma upper_idempotent (s : string) : Str.upper (Str.upper s) = Str.upper s.
Proof.
  induction s as [|c s IH]; simpl; [reflexivity|].
  now rewrite upper_char_idempotent, IH.
Qed.

Lemma upper_lower (s : string) : Str.upper (App.lower s) = Str.upper s.
Proof.
  induction s as [|c s IH]; simpl; [reflexivity|].
  now rewrite upper_char_lower_char, IH.
Qed.

(** X13. [check_promo] does not tell letter cases apart: a code, its
    upper-case form and its lower-case form give the same result, and so do
    any two codes that agree up to letter case. *)
Theorem check_promo_case_insensitive (code : string) (base_price : Float.float) :
  check_promo (Str.upper code) base_price = check_promo code base_price /\
  check_promo (App.lower code) base_price = check_promo code base_price /\
  (forall code',
     Str.upper code' = Str.upper code ->
     check_promo code' base_price = check_promo code base_price).
Proof.
  unfold check_promo. repeat split.
  - now rewrite upper_idempotent.
  - now rewrite upper_lower.
  - intros code' H. now rewrite H.
Qed.

Lemma check_promo_case_insensitive_witness :
  check_promo "fLaSh30" (Float.of_Z 80) = check_promo "FLASH30" (Float.of_Z 80).
Proof.
  exact (proj2 (proj2 (check_promo_case_insensitive "FLASH30" (Float.of_Z 80)))
           "fLaSh30" eq_refl).
Defined.

Lemma table_percentages :
  Float.mul (Float.decimal 10 2) (Float.of_Z 100) = Float.of_Z 10 /\
  Float.mul (Float.decimal 20 2) (Float.of_Z 100) = Float.of_Z 20 /\
  Float.mul (Float.decimal 30 2) (Float.of_Z 100) = Float.of_Z 30 /\
  Float.mul (Float.decimal 15 2) (Float.of_Z 100) = Float.of_Z 15.
Proof. vm_compute. repeat split. Qed.

(** X14. A code is valid exactly when its upper-case form is one of
    [SAVE10], [SUMMER20], [FLASH30] and [FIRSTORDER], whatever the base
    price (which is not checked: any float passes).  For a valid code the
    original price is the base price as given and the percentage is exactly
    10, 20, 30 or 15: the product [discount * 100] is exact for the four
    discounts of the table. *)
Theorem check_promo_valid_codes (code : string) (base_price : Float.float) :
  (valid (check_promo code base_price) = true <->
   In (Str.upper code) ["SAVE10"; "SUMMER20"; "FLASH30"; "FIRSTORDER"]) /\
  (forall percentage original final savings,
     check_promo code base_price = PromoValid percentage original final savings ->
     original = base_price /\
     In (Str.upper code, percentage)
        [("SAVE10", Float.of_Z 10); ("SUMMER20", Float.of_Z 20);
         ("FLASH30", Float.of_Z 30); ("FIRSTORDER", Float.of_Z 15)]).
Proof.
  destruct table_percentages as (P10 & P20 & P30 & P15).
  unfold check_promo, PROMO_CODES. cbn [Str.lookup In].
  destruct (String.eqb_spec (Str.upper code) "SAVE10") as [->|H1].
  { split; [split; auto|].
    intros ? ? ? ? H. rewrite P10 in H. injection H as <- <- _ _. auto. }
  destruct (String.eqb_spec (Str.upper code) "SUMMER20") as [->|H2].
  { split; [split; auto|].
    intros ? ? ? ? H. rewrite P20 in H. injection H as <- <- _ _. auto. }
  destruct (String.eqb_spec (Str.upper code) "FLASH30") as [->|H3].
  { split; [split; auto|].
    intros ? ? ? ? H. rewrite P30 in H. injection H as <- <- _ _. auto. }
  destruct (String.eqb_spec (Str.upper code) "FIRSTORDER") as [->|H4].
  { split; [split; auto 6|].
    intros ? ? ? ? H. rewrite P15 in H. injection H as <- <- _ _. auto 6. }
  split; [|discriminate]. cbn [valid]. split; [discriminate|].
  intros [H|[H|[H|[H|[]]]]]; congruence.
Qed.

Lemma check_promo_valid_codes_witness :
  valid (check_promo "firstorder" (Float.of_Z 200)) = true.
Proof.
  apply (proj1 (check_promo_valid_codes "firstorder" (Float.of_Z 200))).
  right; right; right; left. reflexivity.
Defined.

(** ** [compare_prices] *)

Lemma sort_by_key_of_sorted (A : Type) (key : A -> Float.float) (l : list A) :
  StronglySorted (fun a b => Float.ltb (key b) (key a) = false) l ->
  sort_by_key key l = l.
Proof.
  induction 1 as [|x l Hs IH Hx]; simpl; [reflexivity|].
  rewrite IH. now apply insert_by_key_front.
Qed.

Lemma sorted_map (A B : Type) (f : A -> B) (R : A -> A -> Prop)
    (R' : B -> B -> Prop) (l : list A) :
  (forall a b, R a b -> R' (f a) (f b)) ->
  StronglySorted R l -> StronglySorted R' (map f l).
Proof.
  intro H. induction 1 as [|x l Hs IH Hx]; simpl; constructor; [exact IH|].
  apply Forall_map. eapply Forall_impl; [|exact Hx]. intros b. apply H.
Qed.

(** X15. [compare_prices] passes on what [search_products] does for the
    name, without filters: an exception as it is, a result entry by entry in
    the same order.  Its own sort moves nothing, since the products arrive
    sorted by price; the entries ascend in price and each is marked in
    stock. *)
Theorem compare_prices_is_projection (requests_get : string -> response)
    (product_name : string) :
  (forall e,
     search_products requests_get product_name None = Raise e ->
     compare_prices requests_get product_name = Raise e) /\
  (forall products,
     search_products requests_get product_name None = Ok products ->
     compare_prices requests_get product_name = Ok (map comparison_of products) /\
     StronglySorted (fun a b => Float.leb (Cmp.price a) (Cmp.price b) = true)
       (map comparison_of products) /\
     Forall (fun c => Cmp.in_stock c = true) (map comparison_of products)).
Proof.
  split.
  - intros e H. unfold compare_prices. now rewrite H.
  - intros products H.
    destruct (search_products_results _ _ _ H) as [rs [Hrs Hp]].
    assert (Hn : Forall (fun p => Float.is_nan (price p) = false) (List.concat rs))
      by (eapply results_numeric, Hrs).
    split; [|split].
    + unfold compare_prices. rewrite H. cbn [bind]. f_equal. subst products.
      apply sort_by_key_of_sorted.
      apply sorted_map with (R := fun a b => Float.ltb (price b) (price a) = false);
        [auto|].
      now apply sort_by_key_sorted.
    + subst products. apply sorted_map with
        (R := fun a b => Float.leb (price a) (price b) = true); [auto|].
      now apply sort_by_key_ascending.
    + apply Forall_map. apply Forall_forall. intros p Hin.
      destruct (@search_products_member requests_get product_name None products p
                  H Hin) as [site [_ Hs]].
      destruct (survivors_scraped requests_get site product_name None) as [Hsc _].
      rewrite Forall_forall in Hsc.
      destruct (Hsc p Hs) as (_ & _ & _ & _ & Hstock & _). exact Hstock.
Qed.

Lemma compare_prices_is_projection_witness :
  exists products,
    search_products (fun _ => Response six_listings) "shirt" None = Ok products /\
    compare_prices (fun _ => Response six_listings) "shirt"
      = Ok (map comparison_of products).
Proof.
  pose (world := fun _ : string => Response six_listings).
  destruct (search_products world "shirt" None) as [products|e] eqn:H.
  - exists products. split; [exact H|].
    exact (proj1 (proj2 (compare_prices_is_projection world "shirt") products H)).
  - exfalso. vm_compute in H. discriminate.
Defined.

(** ** [get_return_policy] *)

(** X16. [get_return_policy] returns for every site.  For a site other
    than [amazon.com] and [walmart.com] it is the fallback record, with
    window [Policy not found] and no statement on free returns; the two
    sites of the table have free returns and a window other than that. *)
Theorem get_return_policy_fallback (site : string) :
  (site <> "amazon.com" -> site <> "walmart.com" ->
   get_return_policy site
     = {| window := "Policy not found";
          free_returns := None;
          conditions := "Please check store website";
          process := "Contact store customer service" |}) /\
  (site = "amazon.com" \/ site = "walmart.com" ->
   free_returns (get_return_policy site) = Some true /\
   window (get_return_policy site) <> "Policy not found") /\
  (window (get_return_policy site) = "Policy not found" <->
   site <> "amazon.com" /\ site <> "walmart.com").
Proof.
  unfold get_return_policy, return_policies. cbn [Str.lookup].
  destruct (String.eqb_spec site "amazon.com") as [->|H1].
  { cbn. repeat split; try discriminate; try congruence; tauto. }
  destruct (String.eqb_spec site "walmart.com") as [->|H2].
  { cbn. repeat split; try discriminate; try congruence; tauto. }
  cbn. split; [intros; reflexivity|].
  split; [intros [E|E]; contradiction|].
  split; [now intros _|reflexivity].
Qed.

Lemma get_return_policy_fallback_witness :
  window (get_return_policy "unknown-site.com") = "Policy not found" /\
  free_returns (get_return_policy "amazon.com") = Some true.
Proof.
  split.
  - apply (proj2 (proj2 (get_return_policy_fallback "unknown-site.com"))).
    split; discriminate.
  - apply (proj1 (proj2 (get_return_policy_fallback "amazon.com"))).
    now left.
Defined.

(** ** [format_response] *)

Lemma lower_app (a b : string) : App.lower (a ++ b) = App.lower a ++ App.lower b.
Proof.
  induction a as [|c a IH]; simpl; [reflexivity|]. now rewrite IH.
Qed.

Lemma prefix_app (w b : string) : String.prefix w (w ++ b) = true.
Proof.
  induction w as [|c w IH]; simpl; [destruct b; reflexivity|].
  destruct (ascii_dec c c); [exact IH|congruence].
Qed.

Lemma contains_prefix (w h : string) :
  String.prefix w h = true -> App.contains w h = true.
Proof.
  intro H. destruct h; cbn [App.contains]; now rewrite H.
Qed.

Lemma contains_app (w a b : string) : App.contains w (a ++ w ++ b) = true.
Proof.
  induction a as [|c a IH].
  - change (App.contains w (w ++ b) = true).
    apply contains_prefix. apply (prefix_app w b).
  - cbn [append App.contains]. rewrite IH. apply orb_true_r.
Qed.

(** X17. [format_response] keeps the agent's message as it is in
    [main_response], and finds its three key words wherever they stand and
    in whatever letter case: a message with [shipping], [promo] or
    [price comparison] somewhere in it, in any mix of upper and lower case,
    gets the corresponding field set.  A response without the key [output]
    raises [KeyError]. *)
Theorem format_response_keywords (response : list (string * string))
    (message before word after : string) :
  (Str.lookup "output" response = None ->
   App.format_response response = Raise KeyError) /\
  (Str.lookup "output" response = Some message ->
   message = before ++ word ++ after ->
   exists formatted,
     App.format_response response = Ok formatted /\
     App.main_response formatted = message /\
     (App.lower word = "price comparison" ->
      App.price_comparison formatted = Some "Price comparison data here") /\
     (App.lower word = "shipping" ->
      App.shipping formatted = Some "Shipping details here") /\
     (App.lower word = "promo" ->
      App.promo formatted = Some "Promotion details here")).
Proof.
  unfold App.format_response. split; [now intros ->|].
  intros -> ->. eexists. split; [reflexivity|]. cbn.
  rewrite !lower_app.
  repeat split; intros ->; now rewrite contains_app.
Qed.

Lemma format_response_keywords_witness :
  exists formatted,
    App.format_response [("output", "Free SHIPPING and a Promotion today")]
      = Ok formatted /\
    App.shipping formatted = Some "Shipping details here" /\
    App.price_comparison formatted = None.
Proof.
  destruct (proj2 (format_response_keywords
                     [("output", "Free SHIPPING and a Promotion today")]
                     "Free SHIPPING and a Promotion today"
                     "Free " "SHIPPING" " and a Promotion today")
              eq_refl eq_refl) as [formatted (H & _ & _ & Hs & _)].
  exists formatted. split; [exact H|]. split; [exact (Hs eq_refl)|].
  vm_compute in H. injection H as <-. reflexivity.
Defined.

(** ** Filters that ask nothing *)

Lemma fold_left_pointwise (A B : Type) (f g : A -> B -> A) (l : list B) :
  (forall a b, f a b = g a b) ->
  forall a, fold_left f l a = fold_left g l a.
Proof.
  intro H. induction l as [|b l IH]; intro a; simpl; [reflexivity|].
  now rewrite H, IH.
Qed.

(** [search_site] looks at the filters through [matches_filters] only. *)
Lemma search_site_same_filters (requests_get : string -> response)
    (site query : string) (f1 f2 : Filters) :
  (forall p, matches_filters p f1 = matches_filters p f2) ->
  search_site requests_get site query f1 = search_site requests_get site query f2.
Proof.
  intro H. unfold search_site.
  destruct (Str.lookup site search_query_url_tag) as [tag|]; [|reflexivity].
  destruct (requests_get (search_url site tag query)) as [|soup|e];
    [reflexivity| |reflexivity].
  destruct (Str.lookup site selectors) as [site_selectors|]; [|reflexivity].
  f_equal. f_equal. apply fold_left_pointwise. intros products item.
  unfold loop_step, scrape_item.
  destruct (find_by_class (sel_title site_selectors) item); [|reflexivity].
  destruct (find_by_class (sel_price site_selectors) item); [|reflexivity].
  destruct (find_by_name (sel_url site_selectors) item); [|reflexivity].
  destruct (clean_price _); cbn [bind]; [|reflexivity].
  destruct (Float.ltb Float.zero a); [|reflexivity].
  now rewrite H.
Qed.

Lemma filters_loop_unrecognized (p : Product) (items : list (string * value)) :
  forallb (fun item => negb (is_bound item)
                       && negb (fst item =? "size")
                       && negb (fst item =? "color")) items = true ->
  filters_loop p items = Ok true.
Proof.
  induction items as [|[k v] rest IH]; intro H; [reflexivity|].
  cbn [forallb fst] in H. unfold is_bound in H. cbn [fst] in H.
  apply andb_prop in H. destruct H as [Hk Hrest].
  apply andb_prop in Hk. destruct Hk as [Hk Hcolor].
  apply andb_prop in Hk. destruct Hk as [Hbound Hsize].
  apply negb_true_iff in Hbound, Hsize, Hcolor.
  apply orb_false_elim in Hbound. destruct Hbound as [Hmax Hmin].
  cbn [filters_loop]. rewrite Hmax, Hmin, Hsize, Hcolor. cbn. now apply IH.
Qed.

(** X18. Keys other than [max_price], [min_price], [size] and [color] are
    ignored: with a filter mapping made of such keys only, whatever their
    values, [search_products] returns what it returns without filters; the
    empty mapping is one such case. *)
Theorem search_products_ignores_other_keys (requests_get : string -> response)
    (query : string) (items : list (string * value)) :
  forallb (fun item => negb (is_bound item)
                       && negb (fst item =? "size")
                       && negb (fst item =? "color")) items = true ->
  search_products requests_get query (Some items)
    = search_products requests_get query None.
Proof.
  intro H. unfold search_products. f_equal.
  assert (Hsite : forall site,
            search_site requests_get site query (Some items)
            = search_site requests_get site query None).
  { intro site. apply search_site_same_filters. intro p.
    destruct items as [|item rest]; [reflexivity|].
    cbn [matches_filters]. now apply filters_loop_unrecognized. }
  unfold WEBSITES. cbn [mapM]. now rewrite !Hsite.
Qed.

Lemma search_products_ignores_other_keys_witness :
  search_products (fun _ => Response six_listings) "shirt"
    (Some [("brand", VStr "Acme"); ("rating", VNone)])
  = search_products (fun _ => Response six_listings) "shirt" None.
Proof.
  exact (@search_products_ignores_other_keys (fun _ => Response six_listings)
           "shirt" [("brand", VStr "Acme"); ("rating", VNone)] eq_refl).
Defined.

(** ** The search address *)

Lemma replace_char_no_occurrence (a b : ascii) (s : string) :
  count_char a s = 0 -> Str.replace_char a b s = s.
Proof.
  induction s as [|c s IH]; simpl; [reflexivity|].
  destruct (Ascii.eqb c a); [discriminate|]. intro H. now rewrite IH.
Qed.

(** X19. In the address [search_site] asks for, every space of the query
    has become a plus sign and nothing else has changed: the query part has
    the length of the query and no space, and a query without spaces stands
    in the address as it is (no other character is escaped). *)
Theorem search_url_query (site tag query : string) :
  search_url site tag query
    = "https://www." ++ site ++ "/" ++ tag ++ Str.replace_char " " "+" query /\
  count_char " " (Str.replace_char " " "+" query) = 0 /\
  String.length (Str.replace_char " " "+" query) = String.length query /\
  (count_char " " query = 0 ->
   search_url site tag query = "https://www." ++ site ++ "/" ++ tag ++ query).
Proof.
  split; [reflexivity|]. split; [|split].
  - induction query as [|c q IH]; simpl; [reflexivity|].
    destruct (Ascii.eqb_spec c " ") as [->|Hc]; simpl; [exact IH|].
    apply Ascii.eqb_neq in Hc. now rewrite Hc.
  - induction query as [|c q IH]; simpl; [reflexivity|]. now rewrite IH.
  - intro H. unfold search_url. now rewrite replace_char_no_occurrence.
Qed.

Lemma search_url_query_witness :
  search_url "ebay.com" "sch/i.html?_nkw=" "a&b"
    = "https://www.ebay.com/sch/i.html?_nkw=a&b".
Proof.
  exact (proj2 (proj2 (proj2 (search_url_query "ebay.com" "sch/i.html?_nkw=" "a&b")))
           eq_refl).
Defined.
